(** * Skin Tone Color Advisor: image service and colour model

    A shallow embedding of [app/models/color_model.py],
    [app/core/error_handling.py] and [app/services/image_service.py],
    followed by the properties proved about them.

    Python [int] is [Z]; a NumPy [float64] is a [spec_float] of the
    binary64 format, computed with the operations of [SpecFloat]; a
    [uint8] image is a list of rows of [Z] triples; strings are
    [string]; a raised exception is the [Raise] branch of [result]. *)

From Stdlib Require Import ZArith Bool Lia.
From Stdlib Require Import Strings.String Strings.Ascii Strings.HexString.
From Stdlib Require Import Floats.SpecFloat.
From stdpp Require Import base option list strings.

Open Scope string_scope.
Open Scope list_scope.
Open Scope Z_scope.

(* ================================================================== *)
(** * NumPy scalars: binary64 *)
(* ================================================================== *)

Definition float64 : Type := spec_float.

Module F64.

Definition prec : Z := 53.
Definition emax : Z := 1024.

(** Conversion of an integer to [float64] (round to nearest even; exact
    below [2^53]). *)
Definition of_Z (z : Z) : float64 := binary_normalize prec emax z 0 false.

Definition mul : float64 -> float64 -> float64 := SFmul prec emax.
Definition div : float64 -> float64 -> float64 := SFdiv prec emax.
Definition sqrt : float64 -> float64 := SFsqrt prec emax.

(** [x < y]; false as soon as one side is NaN. *)
Definition ltb (x y : float64) : bool := SFltb x y.
Definition leb (x y : float64) : bool := SFleb x y.

Definition inf : float64 := S754_infinity false.

Definition is_nan (x : float64) : bool :=
  match x with S754_nan => true | _ => false end.

(** The element kernels of [np.clip] on floats: a NaN first argument is
    returned as it is, otherwise [a > b ? a : b] and [a < b ? a : b]. *)
Definition np_max (a b : float64) : float64 :=
  if is_nan a then a else if ltb b a then a else b.
Definition np_min (a b : float64) : float64 :=
  if is_nan a then a else if ltb a b then a else b.

(** [np.clip(x, lo, hi)] with integer bounds. *)
Definition clip (x : float64) (lo hi : Z) : float64 :=
  np_min (np_max x (of_Z lo)) (of_Z hi).

(** Conversion of a float to an integer, towards zero ([astype(int)]
    and the cast of an item assignment).  NaN and the infinities have no
    defined integer value in C; they are sent to [0] here. *)
Definition trunc (x : float64) : Z :=
  match x with
  | S754_finite s m e => cond_Zopp s (Z.shiftl (Zpos m) e)
  | _ => 0
  end.

(** Cast to [uint8]: truncation, kept modulo [2^8]. *)
Definition to_u8 (x : float64) : Z := trunc x mod 256.

(** [np.mean] of a one-dimensional integer array: the sum is accumulated
    in [float64] (exact while it stays below [2^53]) and divided by the
    number of elements; the mean of an empty array is [0.0 / 0 = NaN]
    (NumPy warns, it does not raise). *)
Definition mean (xs : list Z) : float64 :=
  div (of_Z (foldr Z.add 0 xs)) (of_Z (Z.of_nat (length xs))).

End F64.

(* ================================================================== *)
(** * app/core/error_handling.py *)
(* ================================================================== *)

Inductive ErrorCode : Type :=
| VALIDATION_ERROR
| PROCESSING_ERROR
| FILE_ERROR
| IMAGE_PROCESSING_ERROR.

(** [ErrorCode.value] *)
Definition ErrorCode_value (c : ErrorCode) : string :=
  match c with
  | VALIDATION_ERROR => "VALIDATION_ERROR"
  | PROCESSING_ERROR => "PROCESSING_ERROR"
  | FILE_ERROR => "FILE_ERROR"
  | IMAGE_PROCESSING_ERROR => "IMAGE_PROCESSING_ERROR"
  end.

(** [ApplicationError]: [details or {}] is the empty association list when
    no details are given. *)
Record ApplicationError : Type := mkApplicationError {
  message : string;
  error_code : ErrorCode;
  details : list (string * string)
}.

(** What a [try] body can raise: an [ApplicationError], or any other
    exception, of which only [str(e)] is ever observed. *)
Inductive exn : Type :=
| AppExc (e : ApplicationError)
| PyExc (text : string).

Inductive result (A : Type) : Type :=
| Ok (a : A)
| Raise (e : exn).
Arguments Ok {A} a.
Arguments Raise {A} e.

(** Sequencing of statements: the first exception raised ends the body. *)
#[global] Instance result_ret : MRet result := fun A a => Ok a.
#[global] Instance result_bind : MBind result := fun A B k r =>
  match r with
  | Ok a => k a
  | Raise e => Raise e
  end.

(** [except ApplicationError: raise] followed by
    [except Exception as e: raise ApplicationError(msg, code, {"original_error": str(e)})]. *)
Definition reraise_as {A} (msg : string) (code : ErrorCode) (r : result A) : result A :=
  match r with
  | Ok a => Ok a
  | Raise (AppExc e) => Raise (AppExc e)
  | Raise (PyExc text) =>
      Raise (AppExc (mkApplicationError msg code [("original_error", text)]))
  end.

(* ================================================================== *)
(** * app/models/color_model.py *)
(* ================================================================== *)

Inductive SkinTone : Type :=
| VERY_LIGHT
| LIGHT
| MEDIUM_LIGHT
| MEDIUM
| MEDIUM_DARK
| DARK
| VERY_DARK.

#[global] Instance SkinTone_eq_dec : EqDecision SkinTone.
Proof. solve_decision. Defined.

(** An RGB colour, [Tuple[int, int, int]]. *)
Definition color : Type := Z * Z * Z.

(** The components are 8-bit intensities. *)
Definition u8 (x : Z) : Prop := 0 <= x <= 255.
Definition is_color (c : color) : Prop :=
  let '(r, g, b) := c in u8 r /\ u8 g /\ u8 b.

(** ** Formatting: [f"{x:02x}"] *)

Definition hex_digits (n : N) : string :=
  match n with
  | N0 => "0"
  | Npos p => HexString.Raw.of_pos p ""
  end.

(** Zero padding on the left up to [width] characters. *)
Fixpoint zfill (width : nat) (s : string) : string :=
  match (width - String.length s)%nat with
  | O => s
  | S _ =>
      match width with
      | O => s
      | S w => String "0" (zfill w s)
      end
  end.

(** The sign comes first and counts in the width. *)
Definition fmt_02x (x : Z) : string :=
  if x <? 0 then "-" +:+ zfill 1 (hex_digits (Z.abs_N x))
  else zfill 2 (hex_digits (Z.abs_N x)).

(** [f"#{c[0]:02x}{c[1]:02x}{c[2]:02x}"] *)
Definition hex_of_color (c : color) : string :=
  let '(r, g, b) := c in "#" +:+ fmt_02x r +:+ fmt_02x g +:+ fmt_02x b.

Module ColorPalette.

(** A dict is kept as the list of its items in insertion order. *)
Definition RECOMMENDATIONS : list (SkinTone * list (string * list color)) :=
  [ (VERY_LIGHT,
      [ ("clothing", [ (0, 0, 0); (0, 0, 128); (128, 0, 0); (0, 100, 0);
                       (128, 0, 128) ]);
        ("makeup",   [ (255, 182, 193); (255, 228, 225); (255, 192, 203);
                       (219, 112, 147) ]) ]);
    (LIGHT,
      [ ("clothing", [ (0, 0, 0); (0, 0, 128); (128, 0, 0); (0, 100, 0);
                       (128, 0, 128); (255, 0, 0) ]);
        ("makeup",   [ (255, 182, 193); (255, 228, 225); (255, 192, 203);
                       (219, 112, 147); (205, 92, 92) ]) ]);
    (MEDIUM_LIGHT,
      [ ("clothing", [ (0, 0, 0); (0, 0, 128); (128, 0, 0); (0, 100, 0);
                       (255, 0, 0); (255, 165, 0) ]);
        ("makeup",   [ (255, 192, 203); (219, 112, 147); (205, 92, 92);
                       (233, 150, 122) ]) ]);
    (MEDIUM,
      [ ("clothing", [ (0, 0, 0); (0, 0, 128); (255, 0, 0); (255, 165, 0);
                       (255, 215, 0); (255, 255, 255) ]);
        ("makeup",   [ (219, 112, 147); (205, 92, 92); (233, 150, 122);
                       (250, 128, 114) ]) ]);
    (MEDIUM_DARK,
      [ ("clothing", [ (0, 0, 0); (255, 0, 0); (255, 165, 0); (255, 215, 0);
                       (255, 255, 255); (0, 255, 255) ]);
        ("makeup",   [ (205, 92, 92); (233, 150, 122); (250, 128, 114);
                       (255, 99, 71) ]) ]);
    (DARK,
      [ ("clothing", [ (255, 0, 0); (255, 165, 0); (255, 215, 0);
                       (255, 255, 255); (0, 255, 255); (255, 192, 203) ]);
        ("makeup",   [ (233, 150, 122); (250, 128, 114); (255, 99, 71);
                       (255, 69, 0) ]) ]);
    (VERY_DARK,
      [ ("clothing", [ (255, 0, 0); (255, 165, 0); (255, 215, 0);
                       (255, 255, 255); (0, 255, 255); (255, 192, 203);
                       (255, 255, 0) ]);
        ("makeup",   [ (250, 128, 114); (255, 99, 71); (255, 69, 0);
                       (255, 140, 0) ]) ]) ].

(** The table local to [get_color_name], in insertion order. *)
Definition color_names : list (color * string) :=
  [ ((0, 0, 0), "Black");
    ((255, 255, 255), "White");
    ((255, 0, 0), "Red");
    ((0, 255, 0), "Green");
    ((0, 0, 255), "Blue");
    ((255, 255, 0), "Yellow");
    ((255, 0, 255), "Magenta");
    ((0, 255, 255), "Cyan");
    ((128, 0, 0), "Maroon");
    ((0, 128, 0), "Dark Green");
    ((0, 0, 128), "Navy");
    ((128, 128, 0), "Olive");
    ((128, 0, 128), "Purple");
    ((0, 128, 128), "Teal");
    ((255, 165, 0), "Orange");
    ((255, 215, 0), "Gold");
    ((255, 192, 203), "Pink");
    ((219, 112, 147), "Pale Violet Red");
    ((205, 92, 92), "Indian Red");
    ((233, 150, 122), "Dark Salmon");
    ((250, 128, 114), "Salmon");
    ((255, 99, 71), "Tomato");
    ((255, 69, 0), "Orange Red");
    ((255, 140, 0), "Dark Orange");
    ((255, 182, 193), "Light Pink");
    ((255, 228, 225), "Misty Rose") ].

(** [sum((np.array(rgb) - np.array(color_rgb))**2)] *)
Definition sum_sq_diff (rgb color_rgb : color) : Z :=
  let '(r, g, b) := rgb in
  let '(r', g', b') := color_rgb in
  (r - r') ^ 2 + (g - g') ^ 2 + (b - b') ^ 2.

(** [np.sqrt(sum(...))] *)
Definition distance (rgb color_rgb : color) : float64 :=
  F64.sqrt (F64.of_Z (sum_sq_diff rgb color_rgb)).

(** One turn of the loop over [color_names.items()], on the pair
    [(min_distance, closest_color)]. *)
Definition closest_step (rgb : color) (st : float64 * string)
    (item : color * string) : float64 * string :=
  let '(min_distance, closest_color) := st in
  let '(color_rgb, name) := item in
  let d := distance rgb color_rgb in
  if F64.ltb d min_distance then (d, name) else (min_distance, closest_color).

Definition closest_in (table : list (color * string)) (rgb : color)
    : float64 * string :=
  fold_left (closest_step rgb) table (F64.inf, "Unknown").

Definition get_color_name (rgb : color) : string :=
  snd (closest_in color_names rgb).

(** One entry of a recommendation list: the dict with keys ["rgb"],
    ["hex"] and ["name"]. *)
Record recommendation : Type := mkRecommendation {
  rec_rgb : color;
  rec_hex : string;
  rec_name : string
}.

Definition recommend (c : color) : recommendation :=
  mkRecommendation c (hex_of_color c) (get_color_name c).

(** [d.get(key, default)] and [d[key]] on an item list. *)
Fixpoint dict_find {V} (key : SkinTone) (d : list (SkinTone * V)) : option V :=
  match d with
  | [] => None
  | (k, v) :: d' => if decide (k = key) then Some v else dict_find key d'
  end.

Definition dict_get {V} (key : SkinTone) (d : list (SkinTone * V)) (dflt : V) : V :=
  match dict_find key d with
  | Some v => v
  | None => dflt
  end.

(** The body of [get_recommendations] over a given table; the default
    [table[SkinTone.MEDIUM]] is evaluated before the lookup and raises
    [KeyError] when [MEDIUM] itself has no entry. *)
Definition get_recommendations_in
    (table : list (SkinTone * list (string * list color)))
    (skin_tone : SkinTone) : result (list (string * list recommendation)) :=
  match dict_find MEDIUM table with
  | None => Raise (PyExc "KeyError")
  | Some dflt =>
      let recommendations := dict_get skin_tone table dflt in
      Ok (map (fun '(category, colors) => (category, map recommend colors))
              recommendations)
  end.

Definition get_recommendations (skin_tone : SkinTone)
    : result (list (string * list recommendation)) :=
  get_recommendations_in RECOMMENDATIONS skin_tone.

End ColorPalette.

(* ================================================================== *)
(** * Arrays and the libraries called by the image service *)
(* ================================================================== *)

(** One pixel of a three-channel [uint8] array, and the array itself: a
    list of rows, of shape [(height, width, 3)]. *)
Definition pixel : Type := Z * Z * Z.
Definition ndarray : Type := list (list pixel).

(** [a.shape[:2]], with the width of every row. *)
Definition shape (a : ndarray) : nat * list nat := (length a, map length a).

Definition u8_pixel (p : pixel) : Prop := is_color p.
Definition u8_array (a : ndarray) : Prop := Forall (Forall u8_pixel) a.

(** What a call into a library gives back: a value, or an exception that
    is not an [ApplicationError], seen through [str(e)]. *)
Inductive outcome (A : Type) : Type :=
| Returns (a : A)
| Throws (text : string).
Arguments Returns {A} a.
Arguments Throws {A} text.

Definition call {A} (o : outcome A) : result A :=
  match o with
  | Returns a => Ok a
  | Throws text => Raise (PyExc text)
  end.

(** The collaborators of the service that are not part of the repository:
    OpenCV's decoder and colour conversions (per pixel), ColorThief,
    scikit-image's [rgb2lab], PIL's [save], [uuid.uuid4] and the configured
    upload folder. *)
Record externals : Type := mkExternals {
  cv2_imread : string -> option ndarray;
  cv2_RGB2HSV : pixel -> pixel;
  cv2_HSV2RGB : pixel -> pixel;
  ColorThief_init : string -> outcome unit;
  ColorThief_get_color : string -> outcome color;
  ColorThief_get_palette : string -> outcome (list color);
  color_rgb2lab : float64 * float64 * float64 -> float64 * float64 * float64;
  Image_save : string -> ndarray -> outcome unit;
  uuid4 : string;
  upload_folder : string
}.

(** [cv2.cvtColor], taken as the conversion of each pixel on its own.  This
    is exact for the reordering of the channels; for the 8-bit conversions
    between RGB and HSV it is an idealisation, OpenCV's rounding being free
    to depend on where the pixel stands, and no property below rests on the
    RGB values that the conversion back from HSV gives. *)
Definition cvtColor (f : pixel -> pixel) (src : ndarray) : ndarray :=
  map (map f) src.

(** [cv2.COLOR_BGR2RGB] *)
Definition BGR2RGB (p : pixel) : pixel := let '(b, g, r) := p in (r, g, b).

(** [cv2.inRange]: 255 where every channel lies within the bounds. *)
Definition in_range (lower upper p : pixel) : Z :=
  let '(l0, l1, l2) := lower in
  let '(u0, u1, u2) := upper in
  let '(x0, x1, x2) := p in
  if (l0 <=? x0) && (x0 <=? u0) && (l1 <=? x1) && (x1 <=? u1)
     && (l2 <=? x2) && (x2 <=? u2)
  then 255 else 0.

Definition inRange (src : ndarray) (lower upper : pixel) : list (list Z) :=
  map (map (in_range lower upper)) src.

(** [cv2.bitwise_and(src1, src2, mask=mask)] into a fresh destination:
    zero where the mask is zero. *)
Definition and_px (m : Z) (p q : pixel) : pixel :=
  let '(p0, p1, p2) := p in
  let '(q0, q1, q2) := q in
  if m =? 0 then (0, 0, 0) else (Z.land p0 q0, Z.land p1 q1, Z.land p2 q2).

Definition zip3_with {A B C D} (f : A -> B -> C -> D)
    (xs : list A) (ys : list B) (zs : list C) : list D :=
  zip_with (fun x yz => f x yz.1 yz.2) xs (zip ys zs).

Definition bitwise_and (src1 src2 : ndarray) (mask : list (list Z)) : ndarray :=
  zip3_with (zip3_with and_px) mask src1 src2.

(** [np.where(mask > 0)]: the positions of the selected entries, row by
    row. *)
Fixpoint where_row (i j : nat) (row : list Z) : list (nat * nat) :=
  match row with
  | [] => []
  | x :: row' =>
      if 0 <? x then (i, j) :: where_row i (S j) row'
      else where_row i (S j) row'
  end.

Fixpoint where_rows (i : nat) (mask : list (list Z)) : list (nat * nat) :=
  match mask with
  | [] => []
  | row :: mask' => where_row i 0 row ++ where_rows (S i) mask'
  end.

Definition np_where (mask : list (list Z)) : list (nat * nat) :=
  where_rows 0 mask.

(** [a[i, j]]; an index outside the array raises. *)
Definition item (a : ndarray) (ij : nat * nat) : result pixel :=
  match a !! ij.1 with
  | Some row =>
      match row !! ij.2 with
      | Some p => Ok p
      | None => Raise (PyExc "IndexError")
      end
  | None => Raise (PyExc "IndexError")
  end.

(** [a[idx]] for a pair of index arrays: the selected pixels, copied into
    a new [(n, 3)] array. *)
Definition take (a : ndarray) (idx : list (nat * nat)) : result (list pixel) :=
  mapM (item a) idx.

(** [a[i, j] = p] *)
Definition set_item (a : ndarray) (ij : nat * nat) (p : pixel) : result ndarray :=
  match a !! ij.1 with
  | Some row =>
      if decide (ij.2 < length row)%nat
      then Ok (<[ij.1 := <[ij.2 := p]> row]> a)
      else Raise (PyExc "IndexError")
  | None => Raise (PyExc "IndexError")
  end.

(** [a[idx] = values], one row of [values] per position; the number of
    rows has to agree with the number of positions. *)
Fixpoint put (a : ndarray) (idx : list (nat * nat)) (values : list pixel)
    : result ndarray :=
  match idx, values with
  | [], [] => Ok a
  | ij :: idx', p :: values' => a' ← set_item a ij p; put a' idx' values'
  | _, _ => Raise (PyExc "ValueError")
  end.

(** The columns [a[:, 0]], [a[:, 1]], [a[:, 2]] of an [(n, 3)] array. *)
Definition col0 (a : list pixel) : list Z := map (fun p => p.1.1) a.
Definition col1 (a : list pixel) : list Z := map (fun p => p.1.2) a.
Definition col2 (a : list pixel) : list Z := map (fun p => p.2) a.

(** [np.mean(a, axis=0).astype(int)] *)
Definition mean_color (a : list pixel) : color :=
  (F64.trunc (F64.mean (col0 a)), F64.trunc (F64.mean (col1 a)),
   F64.trunc (F64.mean (col2 a))).

(** ** Paths *)

(** [s.lower()] on the letters of ASCII, which is all that [str.lower]
    does to a string in ASCII; the letters outside ASCII, which Python
    lowers as well, are left as they are. *)
Definition lower_char (c : ascii) : ascii :=
  let n := nat_of_ascii c in
  if ((65 <=? n) && (n <=? 90))%nat then ascii_of_nat (n + 32) else c.

Fixpoint str_lower (s : string) : string :=
  match s with
  | EmptyString => EmptyString
  | String c s' => String (lower_char c) (str_lower s')
  end.

(** [s.split('.')[-1]]: what follows the last dot, the whole of [s] when it
    has none. *)
Fixpoint last_field (acc s : string) : string :=
  match s with
  | EmptyString => acc
  | String c s' =>
      if Ascii.eqb c "." then last_field "" s'
      else last_field (acc +:+ String c "") s'
  end.

(** [os.path.join(a, b)] *)
Definition path_join (a b : string) : string :=
  match b with
  | String "/" _ => b
  | _ =>
      match a with
      | EmptyString => b
      | _ => if String.eqb (substring (String.length a - 1) 1 a) "/"
             then a +:+ b else a +:+ "/" +:+ b
      end
  end.

(* ================================================================== *)
(** * app/services/image_service.py *)
(* ================================================================== *)

(** ** The object store

    NumPy arrays are objects: a variable holds a reference, [a.copy()] and
    the OpenCV conversions allocate a new array, an item assignment writes
    into the array it is applied to.  The store of a call is the list of
    the arrays allocated so far; a reference is a position in it. *)

Definition ref : Type := nat.
Definition store : Type := list ndarray.

Definition M (A : Type) : Type := store -> result (A * store).

#[global] Instance M_ret : MRet M := fun A a h => Ok (a, h).
#[global] Instance M_bind : MBind M := fun A B k m h =>
  match m h with
  | Ok (a, h') => k a h'
  | Raise e => Raise e
  end.

Definition lift {A} (r : result A) : M A := fun h =>
  match r with
  | Ok a => Ok (a, h)
  | Raise e => Raise e
  end.

Definition alloc (a : ndarray) : M ref := fun h => Ok (length h, h ++ [a]).

Definition deref (r : ref) : M ndarray := fun h =>
  match h !! r with
  | Some a => Ok (a, h)
  | None => Raise (PyExc "NameError")
  end.

Definition assign (r : ref) (a : ndarray) : M unit := fun h =>
  Ok (tt, <[r := a]> h).

(** [cv2.cvtColor(src, code)]: a new array. *)
Definition cvtColor_new (f : pixel -> pixel) (src : ref) : M ref :=
  a ← deref src; alloc (cvtColor f a).

(** [src.copy()] *)
Definition copy (src : ref) : M ref :=
  a ← deref src; alloc a.

(** [dst[idx] = values], in place. *)
Definition put_in (dst : ref) (idx : list (nat * nat)) (values : list pixel)
    : M unit :=
  a ← deref dst; a' ← lift (put a idx values); assign dst a'.

Module ImageService.

(** The HSV range taken for skin, [lower_skin] and [upper_skin]. *)
Definition lower_skin : pixel := (0, 20, 70).
Definition upper_skin : pixel := (20, 255, 255).

(** The [if]/[elif] chain on [lightness]. *)
Definition tone_of_lightness (lightness : float64) : SkinTone :=
  if F64.ltb (F64.of_Z 85) lightness then VERY_LIGHT
  else if F64.ltb (F64.of_Z 75) lightness then LIGHT
  else if F64.ltb (F64.of_Z 65) lightness then MEDIUM_LIGHT
  else if F64.ltb (F64.of_Z 55) lightness then MEDIUM
  else if F64.ltb (F64.of_Z 45) lightness then MEDIUM_DARK
  else if F64.ltb (F64.of_Z 35) lightness then DARK
  else VERY_DARK.

(** A colour of the metadata: the dict with keys ["rgb"] and ["hex"]. *)
Record color_info : Type := mkColorInfo {
  rgb : color;
  hex : string
}.

Definition color_info_of (c : color) : color_info :=
  mkColorInfo c (hex_of_color c).

Record metadata : Type := mkMetadata {
  avg_skin_color : color_info;
  dominant_color : color_info;
  palette : list color_info;
  lightness : float64
}.

(** [raise ApplicationError("Failed to load image", ...)] when
    [cv2.imread] gives [None]. *)
Definition load (E : externals) (image_path : string) : result ndarray :=
  match cv2_imread E image_path with
  | Some image => Ok image
  | None =>
      Raise (AppExc (mkApplicationError "Failed to load image"
                       IMAGE_PROCESSING_ERROR []))
  end.

(** [avg_skin_color / 255.0] *)
Definition unit_color (c : color) : float64 * float64 * float64 :=
  let '(r, g, b) := c in
  (F64.div (F64.of_Z r) (F64.of_Z 255), F64.div (F64.of_Z g) (F64.of_Z 255),
   F64.div (F64.of_Z b) (F64.of_Z 255)).

(** The body of the [try] block of [detect_skin_tone]. *)
Definition detect_skin_tone_body (E : externals) (image_path : string)
    : result (SkinTone * metadata) :=
  image ← load E image_path;
  let image_rgb := cvtColor BGR2RGB image in
  _ ← call (ColorThief_init E image_path);
  dominant_color ← call (ColorThief_get_color E image_path);
  palette ← call (ColorThief_get_palette E image_path);
  let image_hsv := cvtColor (cv2_RGB2HSV E) image_rgb in
  let skin_mask := inRange image_hsv lower_skin upper_skin in
  let skin_only := bitwise_and image_rgb image_rgb skin_mask in
  skin_pixels ← take skin_only (np_where skin_mask);
  let avg_skin_color :=
    if (0 <? length skin_pixels)%nat then mean_color skin_pixels
    else dominant_color in
  let avg_skin_lab := color_rgb2lab E (unit_color avg_skin_color) in
  let lightness := avg_skin_lab.1.1 in
  let skin_tone := tone_of_lightness lightness in
  let metadata :=
    mkMetadata (color_info_of avg_skin_color) (color_info_of dominant_color)
               (map color_info_of palette) lightness in
  Ok (skin_tone, metadata).

Definition detect_skin_tone (E : externals) (image_path : string)
    : result (SkinTone * metadata) :=
  reraise_as "Failed to detect skin tone" IMAGE_PROCESSING_ERROR
    (detect_skin_tone_body E image_path).

(** [target_hsv_values[target_tone]] *)
Definition target_hsv_values (target_tone : SkinTone) : pixel :=
  match target_tone with
  | VERY_LIGHT => (0, 30, 240)
  | LIGHT => (0, 40, 230)
  | MEDIUM_LIGHT => (0, 50, 220)
  | MEDIUM => (0, 60, 200)
  | MEDIUM_DARK => (0, 70, 180)
  | DARK => (0, 80, 160)
  | VERY_DARK => (0, 90, 140)
  end.

(** An adjustment factor: the quotient [target / mean], a [float64], or
    the integer [1]. *)
Inductive factor : Type :=
| Quotient (f : float64)
| One.

(** [target / np.mean(column) if np.mean(column) > 0 else 1] *)
Definition factor_of (target : Z) (column : list Z) : factor :=
  if F64.ltb (F64.of_Z 0) (F64.mean column)
  then Quotient (F64.div (F64.of_Z target) (F64.mean column))
  else One.

(** [column * factor], element by element, as it enters the [float64]
    array handed to [np.clip]: the product with a [float64] factor, and
    the element itself for the integer [1]. *)
Definition scale (k : factor) (x : Z) : float64 :=
  match k with
  | Quotient f => F64.mul (F64.of_Z x) f
  | One => F64.of_Z x
  end.

(** The rows of
    [np.clip([h * h_factor, np.clip(s * s_factor, 0, 255),
              np.clip(v * v_factor, 0, 255)], 0, 255).transpose()]. *)
Definition clipped_rows (h_factor s_factor v_factor : factor)
    (skin_hsv : list pixel) : list (float64 * float64 * float64) :=
  let hs := map (scale h_factor) (col0 skin_hsv) in
  let ss := map (fun x => F64.clip (scale s_factor x) 0 255) (col1 skin_hsv) in
  let vs := map (fun x => F64.clip (scale v_factor x) 0 255) (col2 skin_hsv) in
  zip3_with (fun h s v => (F64.clip h 0 255, F64.clip s 0 255, F64.clip v 0 255))
            hs ss vs.

(** The cast of the item assignment into the [uint8] array. *)
Definition as_uint8 (row : float64 * float64 * float64) : pixel :=
  let '(h, s, v) := row in (F64.to_u8 h, F64.to_u8 s, F64.to_u8 v).

(** [image_path.split('.')[-1].lower()] and the path of the result. *)
Definition adjusted_path_of (E : externals) (image_path : string) : string :=
  let ext := str_lower (last_field "" image_path) in
  path_join (upload_folder E) ("adjusted_" +:+ uuid4 E +:+ "." +:+ ext).

(** The arrays a call of [adjust_skin_tone] holds when it returns, by the
    name of the variable. *)
Record locals : Type := mkLocals {
  image : ref;
  image_rgb : ref;
  image_hsv : ref;
  skin_mask : list (list Z);
  adjusted_image : ref;
  adjusted_hsv : ref;
  adjusted_rgb : ref
}.

(** The body of the [try] block of [adjust_skin_tone]; next to the path
    it returns, the references of its local arrays are kept. *)
Definition adjust_skin_tone_body (E : externals) (image_path : string)
    (target_tone : SkinTone) : M (string * locals) :=
  loaded ← lift (load E image_path);
  image ← alloc loaded;
  image_rgb ← cvtColor_new BGR2RGB image;
  image_hsv ← cvtColor_new (cv2_RGB2HSV E) image_rgb;
  hsv ← deref image_hsv;
  let skin_mask := inRange hsv lower_skin upper_skin in
  let target_hsv := target_hsv_values target_tone in
  adjusted_image ← copy image_rgb;
  let skin_pixels := np_where skin_mask in
  skin_hsv ← lift (take hsv skin_pixels);
  let h_factor := factor_of target_hsv.1.1 (col0 skin_hsv) in
  let s_factor := factor_of target_hsv.1.2 (col1 skin_hsv) in
  let v_factor := factor_of target_hsv.2 (col2 skin_hsv) in
  adjusted_hsv ← copy image_hsv;
  _ ← put_in adjusted_hsv skin_pixels
        (map as_uint8 (clipped_rows h_factor s_factor v_factor skin_hsv));
  adjusted_rgb ← cvtColor_new (cv2_HSV2RGB E) adjusted_hsv;
  let adjusted_path := adjusted_path_of E image_path in
  out ← deref adjusted_rgb;
  _ ← lift (call (Image_save E adjusted_path out));
  mret (adjusted_path,
        mkLocals image image_rgb image_hsv skin_mask adjusted_image
                 adjusted_hsv adjusted_rgb).

(** A call starts with no array of its own; its handlers turn whatever
    the body raised into an [ApplicationError]. *)
Definition adjust_skin_tone_run (E : externals) (image_path : string)
    (target_tone : SkinTone) : result (string * locals * store) :=
  reraise_as "Failed to adjust skin tone" IMAGE_PROCESSING_ERROR
    (adjust_skin_tone_body E image_path target_tone []).

(** What the caller gets: the path of the adjusted image. *)
Definition adjust_skin_tone (E : externals) (image_path : string)
    (target_tone : SkinTone) : result string :=
  r ← adjust_skin_tone_run E image_path target_tone; Ok r.1.1.

(** [os.path.basename] and [get_image_url]. *)
Fixpoint basename (acc s : string) : string :=
  match s with
  | EmptyString => acc
  | String c s' =>
      if Ascii.eqb c "/" then basename "" s'
      else basename (acc +:+ String c "") s'
  end.

Definition get_image_url (file_path : string) : string :=
  "/uploads/" +:+ basename "" file_path.

End ImageService.

(* ================================================================== *)
(** * A concrete set of collaborators, for the examples *)
(* ================================================================== *)

Module Sample.

Definition sat (x : Z) : Z := Z.max 0 (Z.min 255 x).

(** The textbook RGB to HSV conversion on 8-bit channels, with the hue
    halved to fit [0, 179], in integer arithmetic. *)
Definition RGB2HSV (p : pixel) : pixel :=
  let '(r, g, b) := p in
  let v := Z.max r (Z.max g b) in
  let d := v - Z.min r (Z.min g b) in
  let s := if v =? 0 then 0 else (255 * d + v / 2) / v in
  let h :=
    if d =? 0 then 0
    else if v =? r then (30 * (g - b) / d) mod 180
    else if v =? g then 60 + 30 * (b - r) / d
    else 120 + 30 * (r - g) / d in
  (sat h, sat s, sat v).

(** The textbook inverse. *)
Definition HSV2RGB (px : pixel) : pixel :=
  let '(h, s, v) := px in
  let f := h mod 30 in
  let p := v * (255 - s) / 255 in
  let q := v * (7650 - s * f) / 7650 in
  let t := v * (7650 - s * (30 - f)) / 7650 in
  let '(r, g, b) :=
    match h / 30 with
    | 0 => (v, t, p)
    | 1 => (q, v, p)
    | 2 => (p, v, t)
    | 3 => (p, q, v)
    | 4 => (t, p, v)
    | _ => (v, p, q)
    end in
  (sat r, sat g, sat b).

(** Three files, as OpenCV decodes them (BGR): a skin-coloured pixel
    next to a blue one, two rows of skin tones, and a single blue
    pixel. *)
Definition imread (image_path : string) : option ndarray :=
  if String.eqb image_path "face.png"
  then Some [ [ (120, 150, 200); (255, 0, 0) ] ]
  else if String.eqb image_path "portrait.jpg"
  then Some [ [ (120, 150, 200); (90, 60, 30); (96, 128, 224) ];
              [ (255, 255, 255); (100, 140, 210); (0, 0, 0) ] ]
  else if String.eqb image_path "blue.png"
  then Some [ [ (255, 0, 0) ] ]
  else None.

(** A stand-in for the quantiser: the first pixel of the file. *)
Definition first_color (image_path : string) : outcome color :=
  match imread image_path with
  | Some ((p :: _) :: _) => Returns (BGR2RGB p)
  | _ => Throws "cannot identify image file"
  end.

Definition get_palette (image_path : string) : outcome (list color) :=
  match first_color image_path with
  | Returns c => Returns [c]
  | Throws text => Throws text
  end.

(** A stand-in for the lightness: the mean of the three channels, scaled
    to [0, 100]; no chroma. *)
Definition rgb2lab (c : float64 * float64 * float64)
    : float64 * float64 * float64 :=
  let '(r, g, b) := c in
  let total := SFadd F64.prec F64.emax (SFadd F64.prec F64.emax r g) b in
  (F64.div (F64.mul total (F64.of_Z 100)) (F64.of_Z 3), F64.of_Z 0, F64.of_Z 0).

Definition make (init : string -> outcome unit)
    (lab : float64 * float64 * float64 -> float64 * float64 * float64)
    (save : string -> ndarray -> outcome unit) : externals := {|
  cv2_imread := imread;
  cv2_RGB2HSV := RGB2HSV;
  cv2_HSV2RGB := HSV2RGB;
  ColorThief_init := init;
  ColorThief_get_color := first_color;
  ColorThief_get_palette := get_palette;
  color_rgb2lab := lab;
  Image_save := save;
  uuid4 := "3f0c1a52-7d4e-4b8a-9c61-5e2d8a7b4f10";
  upload_folder := "uploads"
|}.

Definition env : externals :=
  make (fun _ => Returns tt) rgb2lab (fun _ _ => Returns tt).

(** The same collaborators with a lightness of exactly [85.0]. *)
Definition env_85 : externals :=
  make (fun _ => Returns tt)
       (fun _ => (F64.of_Z 85, F64.of_Z 0, F64.of_Z 0))
       (fun _ _ => Returns tt).

(** The same collaborators with a ColorThief that cannot open the file. *)
Definition env_no_thief : externals :=
  make (fun _ => Throws "cannot identify image file") rgb2lab
       (fun _ _ => Returns tt).

End Sample.

(* ================================================================== *)
(** * Notions used to state the properties *)
(* ================================================================== *)

(** The band of lightness of each tone: strictly above its own threshold
    and not above the threshold of the next lighter tone.  [VERY_DARK]
    takes what is left, a NaN included. *)
Definition in_band (l : float64) (t : SkinTone) : Prop :=
  match t with
  | VERY_LIGHT => F64.ltb (F64.of_Z 85) l = true
  | LIGHT => F64.ltb (F64.of_Z 75) l = true /\ F64.leb l (F64.of_Z 85) = true
  | MEDIUM_LIGHT => F64.ltb (F64.of_Z 65) l = true /\ F64.leb l (F64.of_Z 75) = true
  | MEDIUM => F64.ltb (F64.of_Z 55) l = true /\ F64.leb l (F64.of_Z 65) = true
  | MEDIUM_DARK => F64.ltb (F64.of_Z 45) l = true /\ F64.leb l (F64.of_Z 55) = true
  | DARK => F64.ltb (F64.of_Z 35) l = true /\ F64.leb l (F64.of_Z 45) = true
  | VERY_DARK => F64.ltb (F64.of_Z 35) l = false
  end.

(** The fixed gate on HSV pixels: hue 0 to 20, saturation 20 to 255, value
    70 to 255. *)
Definition skin_gate (p : pixel) : Prop :=
  let '(h, s, v) := p in 0 <= h <= 20 /\ 20 <= s <= 255 /\ 70 <= v <= 255.

(** The pixel of an array at a position, if there is one. *)
Definition pixel_at (a : ndarray) (i j : nat) : option pixel :=
  a !! i ≫= (fun row => row !! j).

(** The HSV image a call works on: the decoded file, from BGR to RGB to
    HSV. *)
Definition hsv_of (E : externals) (loaded : ndarray) : ndarray :=
  cvtColor (cv2_RGB2HSV E) (cvtColor BGR2RGB loaded).

(** No pixel of the image passes the gate. *)
Definition no_skin (E : externals) (loaded : ndarray) : Prop :=
  forall i j p, pixel_at (hsv_of E loaded) i j = Some p -> ~ skin_gate p.

(** Reading a colour code back: ["#"] followed by exactly six digits taken
    from [0-9a-f], two for each of red, green and blue. *)
Definition hex_value (c : ascii) : option Z :=
  let n := Z.of_nat (nat_of_ascii c) in
  if (48 <=? n) && (n <=? 57) then Some (n - 48)
  else if (97 <=? n) && (n <=? 102) then Some (n - 87)
  else None.

Definition hex_pair (hi lo : ascii) : option Z :=
  h ← hex_value hi; l ← hex_value lo; Some (16 * h + l).

Definition parse_hex_code (s : string) : option color :=
  match s with
  | String "#" (String r1 (String r0 (String g1 (String g0
      (String b1 (String b0 EmptyString)))))) =>
      r ← hex_pair r1 r0; g ← hex_pair g1 g0; b ← hex_pair b1 b0;
      Some (r, g, b)
  | _ => None
  end.

(** [name] is the name of the first entry of [table] among those at the
    least Euclidean distance of [rgb]; the distances are compared through
    their squares. *)
Definition nearest_first (table : list (color * string)) (rgb : color)
    (name : string) : Prop :=
  exists (i : nat) (c : color),
    table !! i = Some (c, name) /\
    (forall j c' n', table !! j = Some (c', n') ->
       ColorPalette.sum_sq_diff rgb c <= ColorPalette.sum_sq_diff rgb c') /\
    (forall j c' n', (j < i)%nat -> table !! j = Some (c', n') ->
       ColorPalette.sum_sq_diff rgb c < ColorPalette.sum_sq_diff rgb c').

(** The square roots computed for [n + 1], ..., [n + count] are finite and
    each is strictly above the one before, starting from [prev]. *)
Fixpoint sqrt_increasing (count : nat) (n : Z) (prev : float64) : bool :=
  match count with
  | O => true
  | S count' =>
      let cur := F64.sqrt (F64.of_Z (n + 1)) in
      F64.ltb prev cur && F64.ltb cur F64.inf
      && sqrt_increasing count' (n + 1) cur
  end.

(** A check on every integer of [0, 255]. *)
Definition all_u8 (P : Z -> bool) : bool :=
  forallb P (map Z.of_nat (seq 0 256)).

(** What the loop of [get_color_name] has established after the entries of
    [seen]: nothing yet, or the first nearest entry among them. *)
Definition scanned (rgb : color) (seen : list (color * string))
    (st : float64 * string) : Prop :=
  (seen = [] /\ st = (F64.inf, "Unknown")) \/
  exists (i : nat) (c : color) (name : string),
    st = (ColorPalette.distance rgb c, name) /\ is_color c /\
    seen !! i = Some (c, name) /\
    (forall j c' n', seen !! j = Some (c', n') ->
       ColorPalette.sum_sq_diff rgb c <= ColorPalette.sum_sq_diff rgb c') /\
    (forall j c' n', (j < i)%nat -> seen !! j = Some (c', n') ->
       ColorPalette.sum_sq_diff rgb c < ColorPalette.sum_sq_diff rgb c').

(** The skin pixels of an HSV image, row by row. *)
Definition masked_pixels (hsv : ndarray) : list pixel :=
  filter (fun p => 0 < in_range ImageService.lower_skin ImageService.upper_skin p)
         (concat hsv).

(** What the item assignment of [adjust_skin_tone] writes in place of a
    skin pixel: each channel scaled, clipped (twice for saturation and
    value) and cast. *)
Definition retint (h_factor s_factor v_factor : ImageService.factor)
    (p : pixel) : pixel :=
  let '(h, s, v) := p in
  (F64.to_u8 (F64.clip (ImageService.scale h_factor h) 0 255),
   F64.to_u8 (F64.clip (F64.clip (ImageService.scale s_factor s) 0 255) 0 255),
   F64.to_u8 (F64.clip (F64.clip (ImageService.scale v_factor v) 0 255) 0 255)).

(** The three factors of a call, from the target tone and the skin pixels
    of the HSV image. *)
Definition factors (target_tone : SkinTone) (hsv : ndarray)
    : ImageService.factor * ImageService.factor * ImageService.factor :=
  let target_hsv := ImageService.target_hsv_values target_tone in
  let skin_hsv := masked_pixels hsv in
  (ImageService.factor_of target_hsv.1.1 (col0 skin_hsv),
   ImageService.factor_of target_hsv.1.2 (col1 skin_hsv),
   ImageService.factor_of target_hsv.2 (col2 skin_hsv)).

(** A float is a number of the closed interval from [lo] to [hi]. *)
Definition between (lo hi : Z) (x : float64) : Prop :=
  F64.leb (F64.of_Z lo) x = true /\ F64.leb x (F64.of_Z hi) = true.

(** The adjusted HSV image as a function of the HSV image: the skin pixels
    retinted, the others as they are. *)
Definition retinted (target_tone : SkinTone) (hsv : ndarray) : ndarray :=
  map (map (fun p =>
              if 0 <? in_range ImageService.lower_skin ImageService.upper_skin p
              then retint (factors target_tone hsv).1.1
                          (factors target_tone hsv).1.2
                          (factors target_tone hsv).2 p
              else p)) hsv.


(* ================================================================== *)
(** * app/core/error_handling.py: the handler *)
(* ================================================================== *)

(** The dict returned by [handle_error], with its keys ["error"],
    ["message"] and ["details"]. *)
Record payload : Type := mkPayload {
  payload_error : string;
  payload_message : string;
  payload_details : list (string * string)
}.

Module ErrorHandler.

Definition handle_error (error : exn) : payload :=
  match error with
  | AppExc e => mkPayload (ErrorCode_value (error_code e)) (message e) (details e)
  | PyExc _ => mkPayload "INTERNAL_ERROR" "An unexpected error occurred" []
  end.

End ErrorHandler.

(* ================================================================== *)
(** * app/services/image_service.py: uploads *)
(* ================================================================== *)

(** The files of the upload folder, by path. *)
Definition disk : Type := list (string * list Byte.byte).

Fixpoint disk_read (d : disk) (path : string) : option (list Byte.byte) :=
  match d with
  | [] => None
  | (p, content) :: d' =>
      if String.eqb p path then Some content else disk_read d' path
  end.

(** [open(path, "wb")] followed by [write]: the file holds the data, whatever
    it held before. *)
Definition disk_write (d : disk) (path : string) (content : list Byte.byte)
    : disk :=
  (path, content) :: d.

(** What [save_upload] reads from the settings, and the operating system
    seen from [open]: an exception text for the paths that cannot be
    written. *)
Record uploads : Type := mkUploads {
  allowed_extensions : list string;
  open_wb : string -> outcome unit
}.

(** [sep.join(xs)] *)
Fixpoint str_join (sep : string) (xs : list string) : string :=
  match xs with
  | [] => ""
  | [x] => x
  | x :: xs' => x +:+ sep +:+ str_join sep xs'
  end.

(** [x in xs] on strings. *)
Definition str_in (x : string) (xs : list string) : bool :=
  existsb (String.eqb x) xs.

Module Upload.

(** The body of the [try] block of [save_upload], on the disk it finds. *)
Definition save_upload_body (U : uploads) (E : externals)
    (file_data : list Byte.byte) (filename : string) (d : disk)
    : result (string * disk) :=
  let ext := str_lower (last_field "" filename) in
  if negb (str_in ext (allowed_extensions U))
  then Raise (AppExc (mkApplicationError
                        ("File type ." +:+ ext +:+ " not allowed. Allowed types: "
                         +:+ str_join ", " (allowed_extensions U))
                        VALIDATION_ERROR []))
  else
    let unique_filename := uuid4 E +:+ "." +:+ ext in
    let file_path := path_join (upload_folder E) unique_filename in
    _ ← call (open_wb U file_path);
    Ok (file_path, disk_write d file_path file_data).

Definition save_upload (U : uploads) (E : externals)
    (file_data : list Byte.byte) (filename : string) (d : disk)
    : result (string * disk) :=
  reraise_as "Failed to save uploaded file" FILE_ERROR
    (save_upload_body U E file_data filename d).

End Upload.

(** The settings as [config.py] gives them by default, over a disk that
    refuses one path. *)
Definition default_uploads : uploads := {|
  allowed_extensions := ["jpg"; "jpeg"; "png"];
  open_wb := fun path =>
    if String.eqb path "uploads/3f0c1a52-7d4e-4b8a-9c61-5e2d8a7b4f10.jpeg"
    then Throws "[Errno 28] No space left on device"
    else Returns tt
|}.

(** The sample collaborators with a PIL that refuses the extension. *)
Definition sample_env_no_save : externals :=
  Sample.make (fun _ => Returns tt) Sample.rgb2lab
              (fun _ _ => Throws "unknown file extension: .heic").

(** * Further notions used to state the properties *)

(** The string holds a ["/"]. *)
Fixpoint has_slash (s : string) : bool :=
  match s with
  | EmptyString => false
  | String c s' => Ascii.eqb c "/" || has_slash s'
  end.

(** The tones from the lightest, 0, to the darkest, 6. *)
Definition tone_rank (t : SkinTone) : Z :=
  match t with
  | VERY_LIGHT => 0
  | LIGHT => 1
  | MEDIUM_LIGHT => 2
  | MEDIUM => 3
  | MEDIUM_DARK => 4
  | DARK => 5
  | VERY_DARK => 6
  end.

(** The RGB pixels of the decoded image whose HSV conversion passes the
    gate, row by row. *)
Definition skin_rgb (E : externals) (loaded : ndarray) : list pixel :=
  filter (fun p => 0 < in_range ImageService.lower_skin ImageService.upper_skin
                                (cv2_RGB2HSV E p))
         (concat (cvtColor BGR2RGB loaded)).

(** Every character of the string is in ASCII. *)
Fixpoint is_ascii (s : string) : bool :=
  match s with
  | EmptyString => true
  | String c s' => (nat_of_ascii c <? 128)%nat && is_ascii s'
  end.


(* ================================================================== *)
(** * Order on binary64 *)
(* ================================================================== *)

Section FloatOrder.

Implicit Types x y z : float64.

Lemma compare_cont_Eq (m n : positive) :
  Pos.compare_cont Eq m n = (m ?= n)%positive.
Proof. reflexivity. Qed.

(** Exchanging the two sides exchanges [Lt] and [Gt]. *)
Lemma SFcompare_flip x y : SFcompare y x = CompOpp <$> SFcompare x y.
Proof.
  destruct x as [sx|sx| |sx mx ex], y as [sy|sy| |sy my ey]; simpl;
    try reflexivity;
    try (destruct sx; reflexivity); try (destruct sy; reflexivity);
    try (destruct sx, sy; reflexivity).
  rewrite !compare_cont_Eq, (Z.compare_antisym ex ey),
    (Pos.compare_antisym mx my).
  destruct sx, sy; simpl; try reflexivity;
    destruct (ex ?= ey); simpl; try reflexivity;
    destruct (mx ?= my)%positive; reflexivity.
Qed.

Lemma ltb_irrefl x : F64.ltb x x = false.
Proof.
  unfold F64.ltb, SFltb.
  destruct x as [s|s| |s m e]; simpl; try reflexivity;
    try (destruct s; reflexivity).
  rewrite compare_cont_Eq, Z.compare_refl, Pos.compare_refl.
  destruct s; reflexivity.
Qed.

Lemma ltb_asym x y : F64.ltb x y = true -> F64.ltb y x = false.
Proof.
  unfold F64.ltb, SFltb. rewrite (SFcompare_flip x y).
  destruct (SFcompare x y) as [[]|]; simpl; congruence.
Qed.

(** The order on finite numbers of one sign is the lexicographic order
    on exponent and mantissa. *)
Lemma ltb_finite_pos (m1 m2 : positive) (e1 e2 : Z) :
  F64.ltb (S754_finite false m1 e1) (S754_finite false m2 e2) = true <->
  e1 < e2 \/ (e1 = e2 /\ (m1 < m2)%positive).
Proof.
  unfold F64.ltb, SFltb. simpl. rewrite compare_cont_Eq.
  destruct (Z.compare_spec e1 e2), (Pos.compare_spec m1 m2);
    split; intros ?; try discriminate; try reflexivity; lia.
Qed.

Lemma ltb_finite_neg (m1 m2 : positive) (e1 e2 : Z) :
  F64.ltb (S754_finite true m1 e1) (S754_finite true m2 e2) = true <->
  e2 < e1 \/ (e1 = e2 /\ (m2 < m1)%positive).
Proof.
  unfold F64.ltb, SFltb. simpl. rewrite compare_cont_Eq.
  destruct (Z.compare_spec e1 e2), (Pos.compare_spec m1 m2);
    split; simpl; intros ?; try discriminate; try reflexivity; lia.
Qed.

Lemma ltb_trans x y z :
  F64.ltb x y = true -> F64.ltb y z = true -> F64.ltb x z = true.
Proof.
  destruct x as [sx|sx| |sx mx ex], y as [sy|sy| |sy my ey],
           z as [sz|sz| |sz mz ez];
    try discriminate;
    try (destruct sx; try discriminate; destruct sy; try discriminate;
         destruct sz; try discriminate; reflexivity);
    try (destruct sx; try discriminate; destruct sz; try discriminate;
         reflexivity);
    try (destruct sx; try discriminate; destruct sy; try discriminate;
         reflexivity);
    try (destruct sy; try discriminate; destruct sz; try discriminate;
         reflexivity).
  destruct sx, sy, sz; try discriminate; try reflexivity;
    rewrite ?ltb_finite_pos, ?ltb_finite_neg; lia.
Qed.

(** [x <= y] is [not (y < x)] as soon as neither side is NaN. *)
Lemma leb_not_ltb x y :
  F64.is_nan x = false -> F64.is_nan y = false ->
  F64.leb x y = negb (F64.ltb y x).
Proof.
  unfold F64.leb, F64.ltb, SFleb, SFltb. rewrite (SFcompare_flip x y).
  destruct x as [sx|sx| |sx mx ex], y as [sy|sy| |sy my ey]; try discriminate;
    intros _ _; destruct (SFcompare _ _) as [[]|] eqn:E; try reflexivity;
    discriminate E.
Qed.

Lemma ltb_not_nan_r x y : F64.ltb x y = true -> F64.is_nan y = false.
Proof. destruct x as [| | |], y as [| | |]; try discriminate; reflexivity. Qed.

Lemma ltb_not_nan_l x y : F64.ltb x y = true -> F64.is_nan x = false.
Proof. destruct x as [| | |], y as [| | |]; try discriminate; reflexivity. Qed.

End FloatOrder.

(* ================================================================== *)
(** * Sequencing *)
(* ================================================================== *)

Lemma bind_Ok {A B} (r : result A) (k : A -> result B) (b : B) :
  r ≫= k = Ok b -> exists a, r = Ok a /\ k a = Ok b.
Proof. destruct r as [a|e]; [eauto | discriminate]. Qed.

Lemma bind_Raise {A B} (r : result A) (k : A -> result B) (e : exn) :
  r ≫= k = Raise e -> r = Raise e \/ exists a, r = Ok a /\ k a = Raise e.
Proof. destruct r as [a|e']; [eauto | intros [= ->]; eauto]. Qed.

Lemma reraise_as_Ok {A} msg code (r : result A) (a : A) :
  reraise_as msg code r = Ok a -> r = Ok a.
Proof. destruct r as [|[|]]; simpl; congruence. Qed.

(* ================================================================== *)
(** * Classification by lightness *)
(* ================================================================== *)

Section Thresholds.

Import ImageService.

(** The thresholds are in descending order. *)
Lemma thresholds_descend (l : float64) :
  (F64.ltb (F64.of_Z 85) l = true -> F64.ltb (F64.of_Z 75) l = true) /\
  (F64.ltb (F64.of_Z 75) l = true -> F64.ltb (F64.of_Z 65) l = true) /\
  (F64.ltb (F64.of_Z 65) l = true -> F64.ltb (F64.of_Z 55) l = true) /\
  (F64.ltb (F64.of_Z 55) l = true -> F64.ltb (F64.of_Z 45) l = true) /\
  (F64.ltb (F64.of_Z 45) l = true -> F64.ltb (F64.of_Z 35) l = true).
Proof.
  repeat split; intros H; (eapply ltb_trans; [|exact H]); reflexivity.
Qed.

Lemma leb_threshold (c : Z) (l : float64) :
  F64.is_nan (F64.of_Z c) = false -> F64.is_nan l = false ->
  F64.leb l (F64.of_Z c) = true <-> F64.ltb (F64.of_Z c) l = false.
Proof.
  intros Hc Hl. rewrite (leb_not_ltb l _ Hl Hc).
  destruct (F64.ltb _ l); simpl; split; congruence.
Qed.

(** The chain of comparisons selects exactly the tone whose band holds
    the lightness. *)
Lemma tone_of_lightness_band (l : float64) (t : SkinTone) :
  in_band l t <-> tone_of_lightness l = t.
Proof.
  destruct (F64.is_nan l) eqn:Hnan.
  { destruct l; try discriminate.
    destruct t; simpl; split; try discriminate; try reflexivity;
      intros [? ?]; discriminate. }
  assert (Hle : forall c, F64.is_nan (F64.of_Z c) = false ->
            F64.leb l (F64.of_Z c) = true <-> F64.ltb (F64.of_Z c) l = false)
    by (intros c Hc; apply leb_threshold; assumption).
  destruct (thresholds_descend l) as (H1 & H2 & H3 & H4 & H5).
  unfold tone_of_lightness.
  destruct t; unfold in_band; rewrite ?Hle by reflexivity;
    destruct (F64.ltb (F64.of_Z 85) l), (F64.ltb (F64.of_Z 75) l),
             (F64.ltb (F64.of_Z 65) l), (F64.ltb (F64.of_Z 55) l),
             (F64.ltb (F64.of_Z 45) l), (F64.ltb (F64.of_Z 35) l);
    intuition congruence.
Qed.

Lemma detect_skin_tone_tone (E : externals) (image_path : string)
    (tone : SkinTone) (md : metadata) :
  detect_skin_tone E image_path = Ok (tone, md) ->
  tone = tone_of_lightness (lightness md).
Proof.
  intros H. apply reraise_as_Ok in H. unfold detect_skin_tone_body in H.
  repeat (apply bind_Ok in H as (? & _ & H)).
  injection H as <- <-. reflexivity.
Qed.

End Thresholds.

(* ================================================================== *)
(** * Errors of the detection *)
(* ================================================================== *)

Section DetectErrors.

Import ImageService.

Lemma item_Raise (a : ndarray) (ij : nat * nat) (e : exn) :
  item a ij = Raise e -> e = PyExc "IndexError".
Proof.
  unfold item. destruct (a !! ij.1) as [row|]; [destruct (row !! ij.2)|];
    congruence.
Qed.

Lemma take_Raise (a : ndarray) (idx : list (nat * nat)) (e : exn) :
  take a idx = Raise e -> e = PyExc "IndexError".
Proof.
  unfold take. induction idx as [|ij idx IH]; simpl; [discriminate|].
  intros H. apply bind_Raise in H as [H|(p & _ & H)].
  - eapply item_Raise, H.
  - apply bind_Raise in H as [H|(ps & _ & H)]; [auto | discriminate].
Qed.

(** The body raises the loading error, or an exception that is not an
    [ApplicationError]. *)
Lemma detect_skin_tone_body_Raise (E : externals) (image_path : string)
    (e : exn) :
  detect_skin_tone_body E image_path = Raise e ->
  (cv2_imread E image_path = None /\
   e = AppExc (mkApplicationError "Failed to load image"
                 IMAGE_PROCESSING_ERROR [])) \/
  (exists text, e = PyExc text).
Proof.
  unfold detect_skin_tone_body, load.
  destruct (cv2_imread E image_path) as [img|]; simpl;
    [|intros [= <-]; left; split; reflexivity].
  intros H. right.
  destruct (ColorThief_init E image_path) as [[]|t0]; simpl in H;
    [|injection H as <-; eauto].
  destruct (ColorThief_get_color E image_path) as [dc|t1]; simpl in H;
    [|injection H as <-; eauto].
  destruct (ColorThief_get_palette E image_path) as [pal|t2]; simpl in H;
    [|injection H as <-; eauto].
  apply bind_Raise in H as [H|(ps & _ & H)]; [|discriminate].
  apply take_Raise in H. eauto.
Qed.

End DetectErrors.

(** C7: when the image cannot be loaded, [detect_skin_tone] raises the
    [ApplicationError] "Failed to load image" of kind
    [IMAGE_PROCESSING_ERROR]; whatever it raises is an [ApplicationError]
    of that kind; and any other exception raised during the analysis comes
    out as the [ApplicationError] "Failed to detect skin tone" of that
    kind, whose details hold the text of the original exception; so it is
    for an exception of each of the three calls to ColorThief. *)
Theorem detect_skin_tone_errors (E : externals) (image_path : string) :
  (cv2_imread E image_path = None ->
   ImageService.detect_skin_tone E image_path
   = Raise (AppExc (mkApplicationError "Failed to load image"
                      IMAGE_PROCESSING_ERROR []))) /\
  (forall e, ImageService.detect_skin_tone E image_path = Raise e ->
     exists a, e = AppExc a /\ error_code a = IMAGE_PROCESSING_ERROR /\
               ErrorCode_value (error_code a) = "IMAGE_PROCESSING_ERROR") /\
  (forall text,
     ImageService.detect_skin_tone_body E image_path = Raise (PyExc text) ->
     ImageService.detect_skin_tone E image_path
     = Raise (AppExc (mkApplicationError "Failed to detect skin tone"
                        IMAGE_PROCESSING_ERROR [("original_error", text)]))) /\
  (forall loaded text,
     cv2_imread E image_path = Some loaded ->
     ColorThief_init E image_path = Throws text \/
     (ColorThief_init E image_path = Returns tt /\
      ColorThief_get_color E image_path = Throws text) \/
     (ColorThief_init E image_path = Returns tt /\
      (exists c, ColorThief_get_color E image_path = Returns c) /\
      ColorThief_get_palette E image_path = Throws text) ->
     ImageService.detect_skin_tone E image_path
     = Raise (AppExc (mkApplicationError "Failed to detect skin tone"
                        IMAGE_PROCESSING_ERROR [("original_error", text)]))).
Proof.
  unfold ImageService.detect_skin_tone. split; [|split; [|split]].
  - intros Hnone. unfold ImageService.detect_skin_tone_body, ImageService.load.
    rewrite Hnone. reflexivity.
  - intros e He.
    destruct (ImageService.detect_skin_tone_body E image_path) as [r|e0] eqn:Hb;
      [discriminate|].
    apply detect_skin_tone_body_Raise in Hb as [[_ ->]|[text ->]];
      simpl in He; injection He as <-; eexists; repeat split.
  - intros text ->. reflexivity.
  - intros loaded text Hload Hthrow.
    unfold ImageService.detect_skin_tone_body, ImageService.load.
    rewrite Hload.
    destruct Hthrow as [->|[[-> ->]|(-> & [c ->] & ->)]]; reflexivity.
Qed.

(** An undecodable path, and a file that OpenCV decodes but ColorThief
    cannot open. *)
Lemma detect_skin_tone_errors_witness :
  ImageService.detect_skin_tone Sample.env "notes.txt"
  = Raise (AppExc (mkApplicationError "Failed to load image"
                     IMAGE_PROCESSING_ERROR [])) /\
  ImageService.detect_skin_tone Sample.env_no_thief "face.png"
  = Raise (AppExc (mkApplicationError "Failed to detect skin tone"
                     IMAGE_PROCESSING_ERROR
                     [("original_error", "cannot identify image file")])).
Proof.
  split.
  - apply (proj1 (detect_skin_tone_errors Sample.env "notes.txt")).
    reflexivity.
  - apply (proj2 (proj2 (proj2 (detect_skin_tone_errors Sample.env_no_thief
                                  "face.png")))
             [[(120, 150, 200); (255, 0, 0)]]);
      [reflexivity | left; reflexivity].
Defined.

(* ================================================================== *)
(** * The skin mask *)
(* ================================================================== *)

Section Mask.

Import ImageService.

Lemma in_range_skin_gate (p : pixel) :
  0 < in_range lower_skin upper_skin p <-> skin_gate p.
Proof.
  destruct p as [[h s] v]. unfold in_range, lower_skin, upper_skin, skin_gate.
  destruct (_ && _) eqn:Hb.
  - repeat (apply andb_prop in Hb as [Hb ?]). split; [lia | intros _; lia].
  - split; [lia|]. intros (? & ? & ?).
    enough ((0 <=? h) && (h <=? 20) && (20 <=? s) && (s <=? 255)
            && (70 <=? v) && (v <=? 255) = true) by congruence.
    repeat (apply andb_true_intro; split); lia.
Qed.

Lemma elem_of_where_row (i j0 : nat) (row : list Z) (i' j : nat) :
  (i', j) ∈ where_row i j0 row <->
  i' = i /\ (j0 <= j)%nat /\ exists x, row !! (j - j0)%nat = Some x /\ 0 < x.
Proof.
  revert j0. induction row as [|x row IH]; intros j0; simpl.
  - rewrite elem_of_nil. split; [tauto|]. intros (_ & _ & y & Hy & _).
    discriminate.
  - assert (Hrest : (i', j) ∈ where_row i (S j0) row <->
              i' = i /\ (j0 <= j)%nat /\ j <> j0 /\
              exists y, (x :: row) !! (j - j0)%nat = Some y /\ 0 < y).
    { rewrite IH. split.
      - intros (-> & Hj & y & Hy & Hpos). repeat split; try lia.
        exists y. split; [|lia].
        replace (j - j0)%nat with (S (j - S j0)) by lia. exact Hy.
      - intros (-> & Hj & Hne & y & Hy & Hpos). repeat split; try lia.
        exists y. split; [|lia].
        replace (j - j0)%nat with (S (j - S j0)) in Hy by lia. exact Hy. }
    destruct (0 <? x) eqn:Hx.
    + rewrite elem_of_cons, Hrest. split.
      * intros [[= -> ->]|(-> & ? & ? & ?)]; [|tauto].
        repeat split; try lia. exists x. rewrite Nat.sub_diag. split; [done|lia].
      * intros (-> & Hj & y & Hy & Hpos).
        destruct (decide (j = j0)) as [->|Hne]; [left; reflexivity|].
        right. repeat (split; [done|]). exists y. auto.
    + rewrite Hrest. split; [intros (-> & ? & ? & ?); tauto|].
      intros (-> & Hj & y & Hy & Hpos).
      destruct (decide (j = j0)) as [->|Hne];
        [|repeat (split; [done|]); exists y; auto].
      rewrite Nat.sub_diag in Hy. injection Hy as ->. lia.
Qed.

Lemma elem_of_where_rows (i0 : nat) (mask : list (list Z)) (i j : nat) :
  (i, j) ∈ where_rows i0 mask <->
  (i0 <= i)%nat /\
  exists row x, mask !! (i - i0)%nat = Some row /\ row !! j = Some x /\ 0 < x.
Proof.
  revert i0. induction mask as [|row mask IH]; intros i0; simpl.
  - rewrite elem_of_nil. split; [tauto|]. intros (_ & r & x & Hr & _).
    discriminate.
  - rewrite elem_of_app, elem_of_where_row, IH. split.
    + intros [(-> & _ & x & Hx & Hpos)|(Hi & r & x & Hr & Hx & Hpos)].
      * split; [lia|]. exists row, x. rewrite Nat.sub_diag.
        rewrite Nat.sub_0_r in Hx. auto.
      * split; [lia|]. exists r, x.
        replace (i - i0)%nat with (S (i - S i0)) by lia. auto.
    + intros (Hi & r & x & Hr & Hx & Hpos).
      destruct (decide (i = i0)) as [->|Hne].
      * left. rewrite Nat.sub_diag in Hr. injection Hr as ->.
        repeat split; try lia. exists x. rewrite Nat.sub_0_r. auto.
      * right. split; [lia|]. exists r, x.
        replace (i - i0)%nat with (S (i - S i0)) in Hr by lia. auto.
Qed.

Lemma lookup_map {A B} (f : A -> B) (l : list A) (i : nat) :
  map f l !! i = f <$> l !! i.
Proof. revert i. induction l; intros [|i]; simpl; auto. Qed.

Lemma pixel_at_cvtColor (f : pixel -> pixel) (a : ndarray) (i j : nat) :
  pixel_at (cvtColor f a) i j = f <$> pixel_at a i j.
Proof.
  unfold pixel_at, cvtColor, ndarray in *. rewrite lookup_map.
  destruct (a !! i) as [row|]; simpl; [|reflexivity].
  apply lookup_map.
Qed.

(** The positions found by [np.where] on the mask are the positions of
    the pixels that pass the gate. *)
Lemma elem_of_skin_pixels (hsv : ndarray) (i j : nat) :
  (i, j) ∈ np_where (inRange hsv lower_skin upper_skin) <->
  exists p, pixel_at hsv i j = Some p /\ skin_gate p.
Proof.
  unfold np_where. rewrite elem_of_where_rows, Nat.sub_0_r.
  unfold inRange, pixel_at, ndarray in *. rewrite lookup_map. split.
  - intros (_ & r & x & Hr & Hx & Hpos).
    destruct (hsv !! i) as [row|]; [|discriminate]. simpl in *.
    injection Hr as <-. rewrite lookup_map in Hx.
    destruct (row !! j) as [p|]; [|discriminate]. simpl in Hx.
    injection Hx as <-. exists p. split; [done|].
    apply in_range_skin_gate, Hpos.
  - intros (p & Hp & Hg). split; [lia|].
    destruct (hsv !! i) as [row|]; [|discriminate]. simpl in *.
    exists (map (in_range lower_skin upper_skin) row),
           (in_range lower_skin upper_skin p).
    split; [done|]. rewrite lookup_map, Hp. split; [done|].
    apply in_range_skin_gate, Hg.
Qed.

Lemma no_skin_where (E : externals) (loaded : ndarray) :
  no_skin E loaded ->
  np_where (inRange (hsv_of E loaded) lower_skin upper_skin) = [].
Proof.
  intros Hno.
  destruct (np_where _) as [|[i j] idx] eqn:Hw; [reflexivity|].
  assert (Hin : (i, j) ∈ np_where (inRange (hsv_of E loaded) lower_skin upper_skin))
    by (rewrite Hw; left).
  apply elem_of_skin_pixels in Hin as (p & Hp & Hg).
  destruct (Hno i j p Hp Hg).
Qed.

End Mask.

(** C3: when the image is decoded and the quantiser answers, an image in
    which no pixel passes the HSV gate (hue 0 to 20, saturation 20 to 255,
    value 70 to 255) does not make [detect_skin_tone] fail: the dominant
    colour takes the place of the average skin colour and the tone is
    classified from its lightness. *)
Theorem detect_skin_tone_fallback (E : externals) (image_path : string)
    (loaded : ndarray) (dominant : color) (colors : list color) :
  cv2_imread E image_path = Some loaded ->
  ColorThief_init E image_path = Returns tt ->
  ColorThief_get_color E image_path = Returns dominant ->
  ColorThief_get_palette E image_path = Returns colors ->
  no_skin E loaded ->
  let l := (color_rgb2lab E (ImageService.unit_color dominant)).1.1 in
  ImageService.detect_skin_tone E image_path
  = Ok (ImageService.tone_of_lightness l,
        ImageService.mkMetadata
          (ImageService.color_info_of dominant)
          (ImageService.color_info_of dominant)
          (map ImageService.color_info_of colors) l).
Proof.
  intros Hload Hinit Hcolor Hpal Hno l.
  unfold ImageService.detect_skin_tone, ImageService.detect_skin_tone_body,
    ImageService.load.
  rewrite Hload, Hinit, Hcolor, Hpal. simpl.
  fold (hsv_of E loaded). rewrite (no_skin_where E loaded Hno). reflexivity.
Qed.

Lemma detect_skin_tone_fallback_witness :
  ImageService.detect_skin_tone Sample.env "blue.png"
  = Ok (VERY_DARK,
        ImageService.mkMetadata
          (ImageService.mkColorInfo (0, 0, 255) "#0000ff")
          (ImageService.mkColorInfo (0, 0, 255) "#0000ff")
          [ImageService.mkColorInfo (0, 0, 255) "#0000ff"]
          (S754_finite false 4691249611844267 (-47))).
Proof.
  refine (detect_skin_tone_fallback Sample.env "blue.png" [[(255, 0, 0)]]
            (0, 0, 255) [(0, 0, 255)] eq_refl eq_refl eq_refl eq_refl _).
  intros i j p Hp.
  destruct i as [|i]; [|discriminate]. destruct j as [|j]; [|discriminate].
  injection Hp as <-. intros Hg. vm_compute in Hg.
  destruct Hg as [[_ Hg] _]. apply Hg. reflexivity.
Defined.

(* ================================================================== *)
(** * Colour codes *)
(* ================================================================== *)

Section Codes.

Lemma all_u8_spec (P : Z -> bool) :
  all_u8 P = true -> forall x, u8 x -> P x = true.
Proof.
  unfold all_u8, u8. rewrite forallb_forall. intros H x Hx.
  apply H. apply in_map_iff. exists (Z.to_nat x). split; [lia|].
  apply in_seq. lia.
Qed.

(** Two lowercase hexadecimal digits for every 8-bit value. *)
Lemma fmt_02x_u8 (x : Z) :
  u8 x ->
  exists hi lo, fmt_02x x = String hi (String lo "") /\
                hex_pair hi lo = Some x.
Proof.
  intros Hx.
  pose (P := fun x : Z =>
               match fmt_02x x with
               | String hi (String lo EmptyString) =>
                   bool_decide (hex_pair hi lo = Some x)
               | _ => false
               end).
  assert (H : P x = true)
    by (apply (all_u8_spec P); [vm_compute; reflexivity | exact Hx]).
  unfold P in H. destruct (fmt_02x x) as [|hi [|lo [|]]]; try discriminate.
  exists hi, lo. split; [reflexivity|]. apply bool_decide_eq_true in H. exact H.
Qed.

Lemma parse_hex_of_color (c : color) :
  is_color c -> parse_hex_code (hex_of_color c) = Some c.
Proof.
  destruct c as [[r g] b]. intros (Hr & Hg & Hb).
  destruct (fmt_02x_u8 r Hr) as (r1 & r0 & Er & Pr).
  destruct (fmt_02x_u8 g Hg) as (g1 & g0 & Eg & Pg).
  destruct (fmt_02x_u8 b Hb) as (b1 & b0 & Eb & Pb).
  unfold hex_of_color. rewrite Er, Eg, Eb. simpl.
  rewrite Pr, Pg, Pb. reflexivity.
Qed.

End Codes.

(** C5: for each of the seven tones, [get_recommendations] returns a
    ["clothing"] and a ["makeup"] list, neither empty, in which every entry
    carries an RGB triple of 8-bit values and, as its code, ["#"] followed
    by six lowercase hexadecimal digits that read back as that triple; and
    over a table in which the tone has no entry, the lookup falls back on
    the entry of [MEDIUM]. *)
Theorem get_recommendations_well_formed (skin_tone : SkinTone) :
  (exists clothing makeup,
     ColorPalette.get_recommendations skin_tone
     = Ok [("clothing", clothing); ("makeup", makeup)] /\
     clothing <> [] /\ makeup <> [] /\
     forall r, r ∈ clothing ++ makeup ->
       is_color (ColorPalette.rec_rgb r) /\
       ColorPalette.rec_hex r = hex_of_color (ColorPalette.rec_rgb r) /\
       parse_hex_code (ColorPalette.rec_hex r) = Some (ColorPalette.rec_rgb r)) /\
  (forall table dflt,
     ColorPalette.dict_find MEDIUM table = Some dflt ->
     ColorPalette.dict_find skin_tone table = None ->
     ColorPalette.get_recommendations_in table skin_tone
     = Ok (map (fun '(category, colors) =>
                  (category, map ColorPalette.recommend colors)) dflt)).
Proof.
  split.
  - destruct skin_tone; eexists _, _;
      (split; [vm_compute; reflexivity|]);
      (split; [discriminate|]); (split; [discriminate|]);
      intros r Hr; simpl in Hr;
      rewrite ?elem_of_cons, elem_of_nil in Hr; destruct_or!;
      first [ contradiction
            | subst r; split; [unfold is_color, u8; simpl; lia
                              | split; reflexivity] ].
  - intros table dflt Hmed Hnone.
    unfold ColorPalette.get_recommendations_in, ColorPalette.dict_get.
    rewrite Hmed, Hnone. reflexivity.
Qed.

Lemma get_recommendations_well_formed_witness :
  ColorPalette.get_recommendations_in
    [ (MEDIUM, [ ("clothing", [ (255, 215, 0) ]); ("makeup", [ (205, 92, 92) ]) ]) ]
    VERY_DARK
  = Ok [ ("clothing", [ ColorPalette.mkRecommendation (255, 215, 0) "#ffd700" "Gold" ]);
         ("makeup", [ ColorPalette.mkRecommendation (205, 92, 92) "#cd5c5c" "Indian Red" ]) ].
Proof.
  apply (proj2 (get_recommendations_well_formed VERY_DARK)
           [ (MEDIUM, [ ("clothing", [ (255, 215, 0) ]);
                        ("makeup", [ (205, 92, 92) ]) ]) ]
           [ ("clothing", [ (255, 215, 0) ]); ("makeup", [ (205, 92, 92) ]) ]);
    reflexivity.
Defined.

(* ================================================================== *)
(** * Square roots of the squared distances *)
(* ================================================================== *)

Section Roots.

Lemma sqrt_increasing_spec (count : nat) (n : Z) (prev : float64) :
  sqrt_increasing count n prev = true ->
  prev = F64.sqrt (F64.of_Z n) ->
  forall k, n <= k < n + Z.of_nat count ->
    F64.ltb (F64.sqrt (F64.of_Z k)) (F64.sqrt (F64.of_Z (k + 1))) = true /\
    F64.ltb (F64.sqrt (F64.of_Z (k + 1))) F64.inf = true.
Proof.
  revert n prev. induction count as [|count IH]; intros n prev Hc -> k Hk.
  - lia.
  - simpl in Hc. apply andb_prop in Hc as [Hc Hrest].
    apply andb_prop in Hc as [Hstep Hfin].
    destruct (decide (k = n)) as [->|Hne]; [auto|].
    apply (IH (n + 1) _ Hrest eq_refl). lia.
Qed.

(** Over the whole range of squared distances between 8-bit colours,
    from 0 to 3 * 255 * 255, the computed square root is strictly
    increasing. *)
Lemma sqrt_table :
  sqrt_increasing (Z.to_nat 195075) 0 (F64.sqrt (F64.of_Z 0)) = true.
Proof. vm_compute. reflexivity. Qed.

Lemma sqrt_step (k : Z) :
  0 <= k < 195075 ->
  F64.ltb (F64.sqrt (F64.of_Z k)) (F64.sqrt (F64.of_Z (k + 1))) = true /\
  F64.ltb (F64.sqrt (F64.of_Z (k + 1))) F64.inf = true.
Proof.
  intros Hk. apply (sqrt_increasing_spec _ 0 _ sqrt_table eq_refl). lia.
Qed.

Lemma sqrt_finite (a : Z) :
  0 <= a <= 195075 -> F64.ltb (F64.sqrt (F64.of_Z a)) F64.inf = true.
Proof.
  intros Ha. destruct (decide (a = 0)) as [->|Hne]; [reflexivity|].
  replace a with (a - 1 + 1) by lia. apply sqrt_step. lia.
Qed.

Lemma sqrt_mono (a b : Z) :
  0 <= a -> a < b -> b <= 195075 ->
  F64.ltb (F64.sqrt (F64.of_Z a)) (F64.sqrt (F64.of_Z b)) = true.
Proof.
  intros Ha Hab Hb.
  replace b with (a + 1 + Z.of_nat (Z.to_nat (b - a - 1))) in * by lia.
  induction (Z.to_nat (b - a - 1)) as [|d IH].
  - rewrite Z.add_0_r. apply sqrt_step. lia.
  - eapply ltb_trans; [apply IH; lia|].
    replace (a + 1 + Z.of_nat (S d)) with (a + 1 + Z.of_nat d + 1) by lia.
    apply sqrt_step. lia.
Qed.

Lemma sqrt_ltb (a b : Z) :
  0 <= a <= 195075 -> 0 <= b <= 195075 ->
  F64.ltb (F64.sqrt (F64.of_Z a)) (F64.sqrt (F64.of_Z b)) = true <-> a < b.
Proof.
  intros Ha Hb. split; [|intros; apply sqrt_mono; lia].
  intros Hlt. destruct (Z.lt_trichotomy a b) as [?|[->|Hgt]]; [assumption| |].
  - rewrite ltb_irrefl in Hlt. discriminate.
  - apply ltb_asym in Hlt. rewrite sqrt_mono in Hlt by lia. discriminate.
Qed.

Lemma sum_sq_diff_range (c c' : color) :
  is_color c -> is_color c' ->
  0 <= ColorPalette.sum_sq_diff c c' <= 195075.
Proof.
  destruct c as [[r g] b], c' as [[r' g'] b'].
  unfold is_color, u8, ColorPalette.sum_sq_diff.
  intros (Hr & Hg & Hb) (Hr' & Hg' & Hb'). rewrite !Z.pow_2_r.
  assert (Hsq : forall x y, 0 <= x <= 255 -> 0 <= y <= 255 ->
                  0 <= (x - y) * (x - y) <= 65025).
  { intros x y Hx Hy. pose proof (Z.square_nonneg (x - y)).
    assert (0 <= (255 - (x - y)) * (255 + (x - y)))
      by (apply Z.mul_nonneg_nonneg; lia).
    lia. }
  pose proof (Hsq r r' Hr Hr'). pose proof (Hsq g g' Hg Hg').
  pose proof (Hsq b b' Hb Hb'). lia.
Qed.

End Roots.

(* ================================================================== *)
(** * Naming a colour *)
(* ================================================================== *)

Section Nearest.

Import ColorPalette.

Variable rgb : color.
Hypothesis rgb_color : is_color rgb.

Lemma distance_ltb (c c' : color) :
  is_color c -> is_color c' ->
  F64.ltb (distance rgb c) (distance rgb c') = true <->
  sum_sq_diff rgb c < sum_sq_diff rgb c'.
Proof.
  intros Hc Hc'. apply sqrt_ltb; apply sum_sq_diff_range; assumption.
Qed.

Lemma scanned_step (seen : list (color * string)) (st : float64 * string)
    (c0 : color) (n0 : string) :
  is_color c0 -> scanned rgb seen st ->
  scanned rgb (seen ++ [(c0, n0)]) (closest_step rgb st (c0, n0)).
Proof.
  intros Hc0 [[-> ->]|(i & c & name & -> & Hc & Hi & Hmin & Hfirst)]; right.
  - exists 0%nat, c0, n0. simpl.
    unfold distance. rewrite sqrt_finite by (apply sum_sq_diff_range; assumption).
    repeat split; try assumption.
    + intros [|j] c' n' Hj; [injection Hj as <- <-; lia | discriminate].
    + intros j c' n' Hj. lia.
  - simpl. destruct (F64.ltb (distance rgb c0) (distance rgb c)) eqn:Hlt.
    + apply distance_ltb in Hlt; [|assumption..].
      exists (length seen), c0, n0. repeat split; try assumption.
      * rewrite lookup_app_r by lia. rewrite Nat.sub_diag. reflexivity.
      * intros j c' n' Hj. apply lookup_app_Some in Hj as [Hj|[_ Hj]].
        -- specialize (Hmin j c' n' Hj). lia.
        -- destruct (j - length seen)%nat; [|discriminate].
           injection Hj as <- <-. lia.
      * intros j c' n' Hlen Hj. rewrite lookup_app_l in Hj by lia.
        specialize (Hmin j c' n' Hj). lia.
    + assert (Hge : sum_sq_diff rgb c <= sum_sq_diff rgb c0).
      { destruct (Z.lt_ge_cases (sum_sq_diff rgb c0) (sum_sq_diff rgb c)) as [H|H];
          [|lia].
        apply distance_ltb in H; [congruence | assumption..]. }
      exists i, c, name. repeat split; try assumption.
      * apply lookup_app_l_Some. assumption.
      * intros j c' n' Hj. apply lookup_app_Some in Hj as [Hj|[_ Hj]].
        -- eapply Hmin, Hj.
        -- destruct (j - length seen)%nat; [|discriminate].
           injection Hj as <- <-. assumption.
      * intros j c' n' Hlt' Hj. apply (Hfirst j c' n' Hlt').
        apply lookup_lt_Some in Hi. rewrite lookup_app_l in Hj by lia.
        assumption.
Qed.

Lemma scanned_fold (todo seen : list (color * string)) (st : float64 * string) :
  Forall (fun item => is_color item.1) todo ->
  scanned rgb seen st ->
  scanned rgb (seen ++ todo) (fold_left (closest_step rgb) todo st).
Proof.
  revert seen st. induction todo as [|[c0 n0] todo IH]; intros seen st Hall Hs.
  - rewrite app_nil_r. exact Hs.
  - apply Forall_cons in Hall as [Hc0 Hall]. simpl.
    replace (seen ++ (c0, n0) :: todo) with ((seen ++ [(c0, n0)]) ++ todo)
      by (rewrite <- app_assoc; reflexivity).
    apply IH; [assumption|]. apply scanned_step; assumption.
Qed.

Lemma closest_in_nearest (table : list (color * string)) :
  table <> [] -> Forall (fun item => is_color item.1) table ->
  nearest_first table rgb (closest_in table rgb).2.
Proof.
  intros Hne Hall.
  destruct (scanned_fold table [] (F64.inf, "Unknown") Hall)
    as [[Hnil _]|(i & c & name & Hst & _ & Hi & Hmin & Hfirst)].
  - left. split; reflexivity.
  - simpl in Hnil. contradiction.
  - unfold closest_in. rewrite Hst. simpl. exists i, c. simpl in *. auto.
Qed.

Lemma nearest_first_unique (table : list (color * string)) (n1 n2 : string) :
  nearest_first table rgb n1 -> nearest_first table rgb n2 -> n1 = n2.
Proof.
  intros (i1 & c1 & H1 & Hmin1 & Hfirst1) (i2 & c2 & H2 & Hmin2 & Hfirst2).
  destruct (Nat.lt_trichotomy i1 i2) as [Hlt|[->|Hlt]].
  - specialize (Hfirst2 _ _ _ Hlt H1). specialize (Hmin1 _ _ _ H2). lia.
  - congruence.
  - specialize (Hfirst1 _ _ _ Hlt H2). specialize (Hmin2 _ _ _ H1). lia.
Qed.

End Nearest.

Lemma color_names_colors :
  Forall (fun item : color * string => is_color item.1) ColorPalette.color_names.
Proof. repeat constructor; simpl; unfold u8; lia. Qed.

(** C6: for every RGB triple of 8-bit values, [get_color_name] returns the
    name of the first entry of the table, in its order, among the entries
    at the least Euclidean distance of the triple; that name is the only
    one with this property, so the result depends on the triple alone; and
    black and white are named ["Black"] and ["White"]. *)
Theorem get_color_name_nearest (rgb : color) :
  is_color rgb ->
  nearest_first ColorPalette.color_names rgb (ColorPalette.get_color_name rgb) /\
  (forall name, nearest_first ColorPalette.color_names rgb name ->
     name = ColorPalette.get_color_name rgb) /\
  ColorPalette.get_color_name (0, 0, 0) = "Black" /\
  ColorPalette.get_color_name (255, 255, 255) = "White".
Proof.
  intros Hrgb.
  assert (Hn : nearest_first ColorPalette.color_names rgb
                 (ColorPalette.get_color_name rgb))
    by (apply closest_in_nearest;
        [assumption | discriminate | exact color_names_colors]).
  split; [exact Hn|]. split; [|split; reflexivity].
  intros name Hname. exact (nearest_first_unique rgb _ _ _ Hname Hn).
Qed.

Lemma get_color_name_nearest_witness :
  nearest_first ColorPalette.color_names (0, 100, 0) "Dark Green".
Proof.
  apply (get_color_name_nearest (0, 100, 0)). unfold is_color, u8. lia.
Defined.

(* ================================================================== *)
(** * Indexing arrays *)
(* ================================================================== *)

Section Indexing.

Lemma take_app (a : ndarray) (idx1 idx2 : list (nat * nat)) :
  take a (idx1 ++ idx2)
  = ps1 ← take a idx1; ps2 ← take a idx2; Ok (ps1 ++ ps2).
Proof.
  unfold take. induction idx1 as [|ij idx1 IH]; simpl.
  - destruct (mapM (item a) idx2); reflexivity.
  - destruct (item a ij) as [p|e]; simpl; [|reflexivity]. rewrite IH.
    destruct (mapM (item a) idx1) as [ps1|e]; simpl; [|reflexivity].
    destruct (mapM (item a) idx2); reflexivity.
Qed.

Lemma take_where_row (a : ndarray) (f : pixel -> Z) (i : nat)
    (pre suf : list pixel) :
  a !! i = Some (pre ++ suf) ->
  take a (where_row i (length pre) (map f suf))
  = Ok (filter (fun p => 0 < f p) suf).
Proof.
  revert pre. induction suf as [|p suf IH]; intros pre Ha; [reflexivity|].
  assert (Hnext : take a (where_row i (S (length pre)) (map f suf))
                  = Ok (filter (fun p => 0 < f p) suf)).
  { replace (S (length pre)) with (length (pre ++ [p]))
      by (rewrite length_app; simpl; lia).
    apply IH. rewrite <- app_assoc. exact Ha. }
  simpl. rewrite filter_cons. destruct (Z.ltb_spec 0 (f p)) as [Hp|Hp].
  - rewrite decide_True by assumption.
    change (take a ((i, length pre) :: ?l)) with (take a ([(i, length pre)] ++ l)).
    rewrite take_app, Hnext. unfold take, item. simpl. rewrite Ha.
    rewrite lookup_app_r, Nat.sub_diag by lia. reflexivity.
  - rewrite decide_False by lia. exact Hnext.
Qed.

Lemma take_where_rows (a : ndarray) (f : pixel -> Z) (pre rows : ndarray) :
  a = pre ++ rows ->
  take a (where_rows (length pre) (map (map f) rows))
  = Ok (filter (fun p => 0 < f p) (concat rows)).
Proof.
  revert pre. induction rows as [|row rows IH]; intros pre Ha; [reflexivity|].
  simpl. rewrite take_app, filter_app.
  pose proof (take_where_row a f (length pre) [] row) as Hrow.
  simpl in Hrow. rewrite Hrow
    by (subst a; unfold ndarray in *;
        rewrite lookup_app_r, Nat.sub_diag by lia; reflexivity).
  replace (S (length pre)) with (length (pre ++ [row]))
    by (rewrite length_app; simpl; lia).
  rewrite (IH (pre ++ [row])) by (rewrite <- app_assoc; exact Ha).
  reflexivity.
Qed.

(** Indexing the HSV image by the positions of its mask gives its skin
    pixels. *)
Lemma take_skin_pixels (hsv : ndarray) :
  take hsv (np_where (inRange hsv ImageService.lower_skin ImageService.upper_skin))
  = Ok (masked_pixels hsv).
Proof. apply (take_where_rows hsv _ [] hsv). reflexivity. Qed.

Lemma take_Forall2 (a : ndarray) (idx : list (nat * nat)) (ps : list pixel) :
  take a idx = Ok ps ->
  Forall2 (fun ij p => pixel_at a ij.1 ij.2 = Some p) idx ps.
Proof.
  unfold take. revert ps. induction idx as [|ij idx IH]; intros ps; simpl.
  - intros [= <-]. constructor.
  - intros H. apply bind_Ok in H as (p & Hp & H).
    apply bind_Ok in H as (ps' & Hps & H). injection H as <-.
    constructor; [|apply IH, Hps].
    unfold item in Hp. unfold pixel_at.
    destruct (a !! ij.1) as [row|]; simpl; [|discriminate].
    destruct (row !! ij.2); congruence.
Qed.

Lemma shape_lookup (a b : ndarray) (i : nat) (row : list pixel) :
  shape a = shape b -> a !! i = Some row ->
  exists row', b !! i = Some row' /\ length row' = length row.
Proof.
  unfold shape, ndarray in *. intros [= _ Hlen] Ha.
  assert (H : map length b !! i = Some (length row))
    by (rewrite <- Hlen, lookup_map, Ha; reflexivity).
  rewrite lookup_map in H. destruct (b !! i) as [row'|]; [|discriminate].
  injection H as H. eauto.
Qed.

Lemma shape_insert (a : ndarray) (i : nat) (row row' : list pixel) :
  a !! i = Some row -> length row' = length row ->
  shape (<[i := row']> a) = shape a.
Proof.
  unfold shape, ndarray in *. intros Ha Hlen. rewrite length_insert. f_equal.
  revert i Ha. induction a as [|r a IH]; intros [|i] Ha; simpl in *;
    try discriminate.
  - injection Ha as ->. rewrite Hlen. reflexivity.
  - f_equal. apply IH, Ha.
Qed.

Lemma shape_cvtColor (f : pixel -> pixel) (a : ndarray) :
  shape (cvtColor f a) = shape a.
Proof.
  unfold shape, cvtColor. rewrite length_map. f_equal.
  rewrite map_map. apply map_ext. intros row. apply length_map.
Qed.

Lemma u8_array_cvtColor (f : pixel -> pixel) (a : ndarray) :
  (forall p, u8_pixel (f p)) -> u8_array (cvtColor f a).
Proof.
  intros Hf. unfold u8_array, cvtColor.
  induction a as [|row a IH]; constructor; [|exact IH].
  induction row; constructor; auto.
Qed.

(** One item assignment at a valid position. *)
Lemma set_item_valid (a : ndarray) (i j : nat) (p q : pixel) :
  pixel_at a i j = Some q ->
  exists a', set_item a (i, j) p = Ok a' /\ shape a' = shape a /\
    forall i' j', pixel_at a' i' j'
                  = if decide ((i', j') = (i, j)) then Some p
                    else pixel_at a i' j'.
Proof.
  unfold pixel_at, set_item. simpl. intros Hq.
  destruct (a !! i) as [row|] eqn:Ha; [|discriminate]. simpl in Hq.
  pose proof (lookup_lt_Some _ _ _ Hq) as Hj.
  pose proof (lookup_lt_Some _ _ _ Ha) as Hi.
  rewrite decide_True by assumption. eexists. split; [reflexivity|]. split.
  - apply (shape_insert a i row); [assumption | apply length_insert].
  - intros i' j'. destruct (decide (i' = i)) as [->|Hne].
    + unfold ndarray in *. rewrite list_lookup_insert_eq by assumption. simpl.
      destruct (decide (j' = j)) as [->|Hne].
      * rewrite list_lookup_insert_eq by assumption.
        rewrite decide_True by reflexivity. reflexivity.
      * rewrite list_lookup_insert_ne by congruence.
        rewrite decide_False by congruence. rewrite Ha. reflexivity.
    + unfold ndarray in *. rewrite list_lookup_insert_ne by congruence.
      rewrite decide_False by congruence. reflexivity.
Qed.

(** The item assignment of a whole list of positions, each with the image
    by [g] of the pixel of [a] it holds: the positions listed receive the
    image of their pixel, the others keep what [cur] has. *)
Lemma put_map (g : pixel -> pixel) (a : ndarray) (idx : list (nat * nat))
    (ps : list pixel) :
  Forall2 (fun ij p => pixel_at a ij.1 ij.2 = Some p) idx ps ->
  forall cur, shape cur = shape a ->
  exists adj, put cur idx (map g ps) = Ok adj /\ shape adj = shape a /\
    forall i j, pixel_at adj i j
                = if decide ((i, j) ∈ idx) then g <$> pixel_at a i j
                  else pixel_at cur i j.
Proof.
  induction 1 as [|[i0 j0] p idx ps Hp Hrest IH]; intros cur Hshape.
  - exists cur. split; [reflexivity|]. split; [assumption|].
    intros i j. rewrite decide_False by apply not_elem_of_nil. reflexivity.
  - simpl in Hp.
    assert (Hcur : exists q, pixel_at cur i0 j0 = Some q).
    { unfold pixel_at in *. destruct (a !! i0) as [row|] eqn:Ha; [|discriminate].
      destruct (shape_lookup a cur i0 row (eq_sym Hshape) Ha) as (row' & -> & Hlen).
      simpl in *. apply lookup_lt_Some in Hp.
      apply lookup_lt_is_Some_2. lia. }
    destruct Hcur as (q & Hq).
    destruct (set_item_valid cur i0 j0 (g p) q Hq) as (cur' & Hset & Hshape' & Hat).
    destruct (IH cur') as (adj & Hput & Hshape'' & Hadj); [congruence|].
    exists adj. simpl. rewrite Hset. simpl. split; [exact Hput|].
    split; [assumption|]. intros i j. rewrite Hadj, Hat.
    destruct (decide ((i, j) ∈ idx)) as [Hin|Hnin].
    + rewrite decide_True by (right; assumption). reflexivity.
    + destruct (decide ((i, j) = (i0, j0))) as [[= -> ->]|Hne].
      * rewrite decide_True by left. rewrite Hp. reflexivity.
      * rewrite decide_False; [reflexivity|].
        rewrite elem_of_cons. intros [?|?]; contradiction.
Qed.

Lemma clipped_rows_retint (hf sf vf : ImageService.factor) (ps : list pixel) :
  map ImageService.as_uint8 (ImageService.clipped_rows hf sf vf ps)
  = map (retint hf sf vf) ps.
Proof.
  unfold ImageService.clipped_rows, zip3_with, col0, col1, col2.
  induction ps as [|[[h s] v] ps IH]; [reflexivity|].
  simpl. f_equal. exact IH.
Qed.

End Indexing.

(* ================================================================== *)
(** * A run of [adjust_skin_tone] *)
(* ================================================================== *)

Section AdjustRun.

Import ImageService.

(** Running the statements that only allocate, read or write arrays. *)
Ltac run_store :=
  cbv [mbind M_bind mret M_ret lift alloc deref copy cvtColor_new put_in
       assign lookup list_lookup length app insert list_insert].

Lemma pixel_at_ext (a b : ndarray) :
  shape a = shape b -> (forall i j, pixel_at a i j = pixel_at b i j) -> a = b.
Proof.
  intros Hshape Hat. unfold ndarray in *. apply list_eq. intros i.
  destruct (a !! i) as [row|] eqn:Ha.
  - destruct (shape_lookup a b i row Hshape Ha) as (row' & Hb & Hlen).
    unfold ndarray in *. rewrite Hb. f_equal. apply list_eq. intros j.
    specialize (Hat i j). unfold pixel_at, ndarray in Hat.
    rewrite Ha, Hb in Hat. exact Hat.
  - destruct (b !! i) as [row'|] eqn:Hb; [|reflexivity].
    destruct (shape_lookup b a i row' (eq_sym Hshape) Hb) as (row & Ha' & _).
    unfold ndarray in *. congruence.
Qed.

Lemma pixel_at_retinted (target_tone : SkinTone) (hsv : ndarray) (i j : nat) :
  pixel_at (retinted target_tone hsv) i j
  = (fun p => if 0 <? in_range lower_skin upper_skin p
              then retint (factors target_tone hsv).1.1
                          (factors target_tone hsv).1.2
                          (factors target_tone hsv).2 p
              else p) <$> pixel_at hsv i j.
Proof. apply pixel_at_cvtColor. Qed.

(** The item assignment over the positions of the mask amounts to
    retinting the skin pixels where they stand. *)
Lemma put_skin_pixels (target_tone : SkinTone) (hsv : ndarray) :
  put hsv (np_where (inRange hsv lower_skin upper_skin))
      (map (retint (factors target_tone hsv).1.1 (factors target_tone hsv).1.2
                   (factors target_tone hsv).2) (masked_pixels hsv))
  = Ok (retinted target_tone hsv).
Proof.
  pose proof (take_Forall2 _ _ _ (take_skin_pixels hsv)) as Hall.
  destruct (put_map (retint (factors target_tone hsv).1.1
                            (factors target_tone hsv).1.2
                            (factors target_tone hsv).2)
              hsv _ _ Hall hsv eq_refl) as (adj & Hput & Hshape & Hat).
  rewrite Hput. f_equal. apply pixel_at_ext.
  - rewrite Hshape. symmetry. apply shape_cvtColor.
  - intros i j. rewrite Hat, pixel_at_retinted.
    destruct (decide _) as [Hin|Hnin].
    + apply elem_of_skin_pixels in Hin as (p & Hp & Hg). rewrite Hp.
      cbn [fmap option_fmap option_map].
      apply in_range_skin_gate, Z.ltb_lt in Hg. rewrite Hg. reflexivity.
    + destruct (pixel_at hsv i j) as [p|] eqn:Hp; [|reflexivity].
      cbn [fmap option_fmap option_map].
      destruct (Z.ltb_spec 0 (in_range lower_skin upper_skin p)) as [Hg|Hg];
        [|reflexivity].
      destruct Hnin. apply elem_of_skin_pixels. exists p.
      split; [assumption|]. apply in_range_skin_gate, Hg.
Qed.

(** What a call does once the file is decoded: six arrays, of which only
    the copy of the HSV image is written to, and the outcome of saving
    the last one. *)
Lemma adjust_skin_tone_run_eq (E : externals) (image_path : string)
    (target_tone : SkinTone) (loaded : ndarray) :
  cv2_imread E image_path = Some loaded ->
  let rgb := cvtColor BGR2RGB loaded in
  let hsv := hsv_of E loaded in
  let out := cvtColor (cv2_HSV2RGB E) (retinted target_tone hsv) in
  adjust_skin_tone_run E image_path target_tone
  = match Image_save E (adjusted_path_of E image_path) out with
    | Returns _ =>
        Ok (adjusted_path_of E image_path,
            mkLocals 0%nat 1%nat 2%nat (inRange hsv lower_skin upper_skin)
                     3%nat 4%nat 5%nat,
            [loaded; rgb; hsv; rgb; retinted target_tone hsv; out])
    | Throws text =>
        Raise (AppExc (mkApplicationError "Failed to adjust skin tone"
                         IMAGE_PROCESSING_ERROR [("original_error", text)]))
    end.
Proof.
  intros Hload rgb hsv out.
  unfold adjust_skin_tone_run, adjust_skin_tone_body, load.
  rewrite Hload. run_store.
  change (cvtColor (cv2_RGB2HSV E) (cvtColor BGR2RGB loaded)) with hsv.
  rewrite (take_skin_pixels hsv). run_store.
  rewrite clipped_rows_retint.
  change (factor_of (target_hsv_values target_tone).1.1 (col0 (masked_pixels hsv)))
    with (factors target_tone hsv).1.1.
  change (factor_of (target_hsv_values target_tone).1.2 (col1 (masked_pixels hsv)))
    with (factors target_tone hsv).1.2.
  change (factor_of (target_hsv_values target_tone).2 (col2 (masked_pixels hsv)))
    with (factors target_tone hsv).2.
  rewrite put_skin_pixels. run_store.
  fold out.
  destruct (Image_save E (adjusted_path_of E image_path) out) as [[]|text];
    reflexivity.
Qed.

End AdjustRun.

(* ================================================================== *)
(** * Rounding never produces a NaN *)
(* ================================================================== *)

Section NotNaN.

Lemma shr_1_nonneg (mrs : shr_record) :
  0 <= shr_m mrs -> 0 <= shr_m (shr_1 mrs).
Proof. destruct mrs as [[|[p|p|]|p] r s]; simpl; lia. Qed.

Lemma iter_pos_invariant {A} (P : A -> Prop) (f : A -> A) :
  (forall x, P x -> P (f x)) -> forall p x, P x -> P (SpecFloat.iter_pos f p x).
Proof.
  intros Hf. induction p as [p IH|p IH|]; intros x Hx; simpl; auto.
Qed.

Lemma shr_fexp_nonneg (m e : Z) (l : location) :
  0 <= m -> 0 <= shr_m (shr_fexp F64.prec F64.emax m e l).1.
Proof.
  intros Hm. unfold shr_fexp, shr.
  assert (H0 : 0 <= shr_m (shr_record_of_loc m l))
    by (destruct l as [|[]]; exact Hm).
  destruct (_ - e) as [|p|p]; simpl; try exact H0.
  apply (iter_pos_invariant (fun mrs => 0 <= shr_m mrs)); [|exact H0].
  apply shr_1_nonneg.
Qed.

Lemma round_nearest_even_nonneg (m : Z) (l : location) :
  0 <= m -> 0 <= round_nearest_even m l.
Proof.
  intros Hm. destruct l as [|[]]; simpl; try lia. destruct (Z.even m); lia.
Qed.

Lemma binary_round_aux_not_nan (sx : bool) (mx ex : Z) (lx : location) :
  0 <= mx ->
  F64.is_nan (binary_round_aux F64.prec F64.emax sx mx ex lx) = false.
Proof.
  intros Hm. unfold binary_round_aux.
  pose proof (shr_fexp_nonneg mx ex lx Hm) as H1.
  destruct (shr_fexp F64.prec F64.emax mx ex lx) as [mrs' e']. simpl in H1.
  pose proof (shr_fexp_nonneg _ e' loc_Exact
                (round_nearest_even_nonneg _ (loc_of_shr_record mrs') H1)) as H2.
  destruct (shr_fexp F64.prec F64.emax _ e' loc_Exact) as [mrs'' e''].
  simpl in H2. destruct (shr_m mrs'') as [|m|m]; [reflexivity| |lia].
  destruct (_ <=? _); reflexivity.
Qed.

Lemma of_Z_not_nan (z : Z) : F64.is_nan (F64.of_Z z) = false.
Proof.
  unfold F64.of_Z, binary_normalize, binary_round.
  destruct z as [|m|m]; [reflexivity| |];
    destruct (shl_align _ _ _) as [mz ez];
    apply binary_round_aux_not_nan; lia.
Qed.

(** A product is a NaN only for a NaN factor or for zero times
    infinity. *)
Lemma mul_finite_not_nan (s : bool) (m : positive) (e : Z) (y : float64) :
  F64.is_nan y = false -> F64.is_nan (F64.mul (S754_finite s m e) y) = false.
Proof.
  destruct y as [sy|sy| |sy my ey]; intros Hy; try discriminate;
    try reflexivity.
  apply binary_round_aux_not_nan. lia.
Qed.

(** A quotient by a float above zero is a NaN only for a NaN or infinite
    dividend. *)
Lemma div_positive_not_nan (x y : float64) :
  (forall s, x <> S754_infinity s) -> F64.is_nan x = false ->
  F64.ltb (F64.of_Z 0) y = true -> F64.is_nan (F64.div x y) = false.
Proof.
  intros Hinf Hx Hy.
  destruct x as [sx|sx| |sx mx ex]; try discriminate;
    [|destruct (Hinf sx); reflexivity|];
    destruct y as [sy|sy| |sy my ey]; try discriminate; try reflexivity.
  unfold F64.div, SFdiv, SFdiv_core_binary.
  set (m' := match _ - _ with 0 => _ | Z.pos _ => _ | Z.neg _ => _ end).
  assert (Hm' : 0 <= m').
  { unfold m'. destruct (_ - _); try lia. apply Z.shiftl_nonneg. lia. }
  pose proof (Z.div_pos m' (Z.pos my) Hm' eq_refl) as Hq.
  unfold Z.div in Hq. destruct (Z.div_eucl m' (Z.pos my)) as [q r].
  apply binary_round_aux_not_nan. exact Hq.
Qed.

Lemma div_zero_positive (y : float64) :
  F64.ltb (F64.of_Z 0) y = true ->
  F64.div (F64.of_Z 0) y = S754_zero false.
Proof.
  destruct y as [sy|sy| |sy my ey]; try discriminate;
    destruct sy; try discriminate; reflexivity.
Qed.

End NotNaN.

(* ================================================================== *)
(** * Clipping and casting *)
(* ================================================================== *)

Section Clipping.

Import ImageService.

Lemma ltb_leb (x y : float64) : F64.ltb x y = true -> F64.leb x y = true.
Proof.
  unfold F64.ltb, F64.leb, SFltb, SFleb.
  destruct (SFcompare x y) as [[]|]; congruence.
Qed.

(** Whatever number it is given, [np.clip(x, 0, 255)] answers a number
    from 0 to 255. *)
Lemma clip_between (x : float64) :
  F64.is_nan x = false -> between 0 255 (F64.clip x 0 255).
Proof.
  intros Hx. unfold F64.clip, F64.np_max. rewrite Hx.
  destruct (F64.ltb (F64.of_Z 0) x) eqn:H0; unfold F64.np_min.
  - rewrite Hx. destruct (F64.ltb x (F64.of_Z 255)) eqn:H255.
    + split; apply ltb_leb; assumption.
    + split; reflexivity.
  - split; reflexivity.
Qed.

Lemma clip_not_nan (x : float64) :
  F64.is_nan x = false -> F64.is_nan (F64.clip x 0 255) = false.
Proof.
  intros Hx. destruct (clip_between x Hx) as [_ H].
  destruct (F64.clip x 0 255); try reflexivity. discriminate H.
Qed.

(** Above 255 the result is 255; strictly between 0 and 255 the value
    goes through, also when it is above 179. *)
Lemma clip_above (x : float64) :
  F64.ltb (F64.of_Z 255) x = true -> F64.clip x 0 255 = F64.of_Z 255.
Proof.
  intros H. pose proof (ltb_not_nan_r _ _ H) as Hx.
  assert (H0 : F64.ltb (F64.of_Z 0) x = true)
    by (eapply ltb_trans; [|exact H]; reflexivity).
  unfold F64.clip, F64.np_max, F64.np_min. rewrite Hx, H0, Hx.
  rewrite (ltb_asym _ _ H). reflexivity.
Qed.

Lemma clip_inside (x : float64) :
  F64.ltb (F64.of_Z 0) x = true -> F64.ltb x (F64.of_Z 255) = true ->
  F64.clip x 0 255 = x.
Proof.
  intros H0 H255. pose proof (ltb_not_nan_r _ _ H0) as Hx.
  unfold F64.clip, F64.np_max, F64.np_min. rewrite Hx, H0, Hx, H255.
  reflexivity.
Qed.

Lemma to_u8_range (x : float64) : u8 (F64.to_u8 x).
Proof. unfold u8, F64.to_u8. pose proof (Z.mod_pos_bound (F64.trunc x) 256). lia. Qed.

Lemma retint_u8 (hf sf vf : factor) (p : pixel) : u8_pixel (retint hf sf vf p).
Proof. destruct p as [[h s] v]. repeat split; apply to_u8_range. Qed.

(** The conversion of an 8-bit value is [+0.0] for 0 and a positive
    finite float otherwise. *)
Lemma of_Z_u8 (x : Z) :
  u8 x ->
  (x = 0 /\ F64.of_Z x = S754_zero false) \/
  (0 < x /\ exists m e, F64.of_Z x = S754_finite false m e).
Proof.
  intros Hx.
  pose (P := fun x : Z =>
               match F64.of_Z x with
               | S754_zero false => x =? 0
               | S754_finite false _ _ => 0 <? x
               | _ => false
               end).
  assert (H : P x = true)
    by (apply (all_u8_spec P); [vm_compute; reflexivity | exact Hx]).
  unfold P in H. destruct (F64.of_Z x) as [[]|[]| |[] m e]; try discriminate.
  - left. split; [lia | reflexivity].
  - right. split; [lia | eauto].
Qed.

(** The factor of a channel is the integer 1 or a quotient that is a
    number. *)
Lemma factor_of_not_nan (target : Z) (column : list Z) (f : float64) :
  u8 target -> factor_of target column = Quotient f -> F64.is_nan f = false.
Proof.
  unfold factor_of. intros Ht.
  destruct (F64.ltb (F64.of_Z 0) (F64.mean column)) eqn:Hm; [|discriminate].
  intros [= <-]. apply div_positive_not_nan; [| apply of_Z_not_nan | exact Hm].
  intros s Hs. destruct (of_Z_u8 target Ht) as [[_ H]|(_ & m & e & H)];
    congruence.
Qed.

(** Scaling a positive 8-bit value gives a number. *)
Lemma scale_not_nan (target : Z) (column : list Z) (x : Z) :
  u8 target -> u8 x -> 0 < x ->
  F64.is_nan (scale (factor_of target column) x) = false.
Proof.
  intros Ht Hx Hpos. destruct (factor_of target column) as [f|] eqn:Hf; simpl.
  - destruct (of_Z_u8 x Hx) as [[? _]|(_ & m & e & ->)]; [lia|].
    apply mul_finite_not_nan. exact (factor_of_not_nan target column f Ht Hf).
  - apply of_Z_not_nan.
Qed.

(** With a target of 0 the scaled value is a number as well, and it is
    zero as soon as the mean of the column is above zero. *)
Lemma scale_zero_target (column : list Z) (x : Z) :
  u8 x ->
  F64.is_nan (scale (factor_of 0 column) x) = false /\
  (F64.ltb (F64.of_Z 0) (F64.mean column) = true ->
   factor_of 0 column = Quotient (S754_zero false) /\
   F64.to_u8 (F64.clip (scale (factor_of 0 column) x) 0 255) = 0).
Proof.
  intros Hx. unfold factor_of.
  destruct (F64.ltb (F64.of_Z 0) (F64.mean column)) eqn:Hm.
  - rewrite (div_zero_positive _ Hm). simpl.
    destruct (of_Z_u8 x Hx) as [[_ ->]|(_ & m & e & ->)];
      (split; [reflexivity | intros _; split; reflexivity]).
  - simpl. split; [apply of_Z_not_nan | discriminate].
Qed.

Lemma target_hsv_values_u8 (t : SkinTone) :
  (target_hsv_values t).1.1 = 0 /\ u8 (target_hsv_values t).1.2 /\
  u8 (target_hsv_values t).2.
Proof. destruct t; simpl; unfold u8; lia. Qed.

Lemma skin_gate_u8 (p : pixel) :
  skin_gate p -> u8 p.1.1 /\ u8 p.1.2 /\ 0 < p.1.2 /\ u8 p.2 /\ 0 < p.2.
Proof. destruct p as [[h s] v]. unfold skin_gate, u8. simpl. lia. Qed.

End Clipping.

(* ================================================================== *)
(** * Properties of [adjust_skin_tone] *)
(* ================================================================== *)

Section AdjustFacts.

Import ImageService.

Variable E : externals.
Variable image_path : string.
Variable target_tone : SkinTone.
Variable loaded : ndarray.

Hypothesis Hload : cv2_imread E image_path = Some loaded.
Hypothesis Hsave :
  forall a, Image_save E (adjusted_path_of E image_path) a = Returns tt.

(** The call returns, with its six arrays. *)
Lemma adjust_skin_tone_run_saved :
  adjust_skin_tone_run E image_path target_tone
  = Ok (adjusted_path_of E image_path,
        mkLocals 0%nat 1%nat 2%nat
                 (inRange (hsv_of E loaded) lower_skin upper_skin)
                 3%nat 4%nat 5%nat,
        [ loaded; cvtColor BGR2RGB loaded; hsv_of E loaded;
          cvtColor BGR2RGB loaded; retinted target_tone (hsv_of E loaded);
          cvtColor (cv2_HSV2RGB E) (retinted target_tone (hsv_of E loaded)) ]).
Proof.
  rewrite (adjust_skin_tone_run_eq E image_path target_tone loaded Hload).
  cbv zeta. rewrite Hsave. reflexivity.
Qed.

Lemma shape_retinted (hsv : ndarray) :
  shape (retinted target_tone hsv) = shape hsv.
Proof. apply (shape_cvtColor _ hsv). Qed.

Lemma retinted_skin (i j : nat) (p : pixel) :
  pixel_at (hsv_of E loaded) i j = Some p -> skin_gate p ->
  pixel_at (retinted target_tone (hsv_of E loaded)) i j
  = Some (retint (factors target_tone (hsv_of E loaded)).1.1
                 (factors target_tone (hsv_of E loaded)).1.2
                 (factors target_tone (hsv_of E loaded)).2 p).
Proof.
  intros Hp Hg. rewrite pixel_at_retinted, Hp. cbn [fmap option_fmap option_map].
  apply in_range_skin_gate, Z.ltb_lt in Hg. rewrite Hg. reflexivity.
Qed.

Lemma retinted_other (i j : nat) (p : pixel) :
  pixel_at (hsv_of E loaded) i j = Some p -> ~ skin_gate p ->
  pixel_at (retinted target_tone (hsv_of E loaded)) i j = Some p.
Proof.
  intros Hp Hg. rewrite pixel_at_retinted, Hp. cbn [fmap option_fmap option_map].
  destruct (Z.ltb_spec 0 (in_range lower_skin upper_skin p)) as [H|H];
    [|reflexivity].
  apply in_range_skin_gate in H. contradiction.
Qed.

Lemma retinted_no_skin :
  no_skin E loaded -> retinted target_tone (hsv_of E loaded) = hsv_of E loaded.
Proof.
  intros Hno. apply pixel_at_ext; [apply shape_cvtColor|].
  intros i j. destruct (pixel_at (hsv_of E loaded) i j) as [p|] eqn:Hp.
  - apply retinted_other; [assumption | eapply Hno, Hp].
  - rewrite pixel_at_retinted, Hp. reflexivity.
Qed.

Lemma masked_pixels_no_skin :
  no_skin E loaded -> masked_pixels (hsv_of E loaded) = [].
Proof.
  intros Hno. pose proof (take_skin_pixels (hsv_of E loaded)) as Htake.
  rewrite (no_skin_where E loaded Hno) in Htake. injection Htake as <-.
  reflexivity.
Qed.

End AdjustFacts.

(** C1, as the code has it: when no pixel of the image passes the gate,
    [adjust_skin_tone] does not raise on that account.  The three factors
    are the integer 1, the adjusted HSV image is the HSV image of the
    input, pixel for pixel, and once the result is saved the call returns
    its path. *)
Theorem adjust_skin_tone_empty_mask (E : externals) (image_path : string)
    (target_tone : SkinTone) (loaded : ndarray) :
  cv2_imread E image_path = Some loaded ->
  (forall a, Image_save E (ImageService.adjusted_path_of E image_path) a
             = Returns tt) ->
  no_skin E loaded ->
  factors target_tone (hsv_of E loaded)
  = (ImageService.One, ImageService.One, ImageService.One) /\
  ImageService.adjust_skin_tone E image_path target_tone
  = Ok (ImageService.adjusted_path_of E image_path) /\
  exists l st,
    ImageService.adjust_skin_tone_run E image_path target_tone
    = Ok (ImageService.adjusted_path_of E image_path, l, st) /\
    st !! ImageService.adjusted_hsv l = Some (hsv_of E loaded) /\
    st !! ImageService.adjusted_rgb l
    = Some (cvtColor (cv2_HSV2RGB E) (hsv_of E loaded)).
Proof.
  intros Hload Hsave Hno.
  pose proof (adjust_skin_tone_run_saved E image_path target_tone loaded
                Hload Hsave) as Hrun.
  rewrite (retinted_no_skin E target_tone loaded Hno) in Hrun.
  split; [|split].
  - unfold factors. rewrite (masked_pixels_no_skin E loaded Hno). reflexivity.
  - unfold ImageService.adjust_skin_tone. rewrite Hrun. reflexivity.
  - eexists _, _. split; [exact Hrun|]. split; reflexivity.
Qed.

Lemma adjust_skin_tone_empty_mask_witness :
  ImageService.adjust_skin_tone Sample.env "blue.png" MEDIUM
  = Ok "uploads/adjusted_3f0c1a52-7d4e-4b8a-9c61-5e2d8a7b4f10.png".
Proof.
  refine (proj1 (proj2 (adjust_skin_tone_empty_mask Sample.env "blue.png" MEDIUM
                          [[(255, 0, 0)]] eq_refl (fun _ => eq_refl) _))).
  intros i j p Hp.
  destruct i as [|i]; [|discriminate]. destruct j as [|j]; [|discriminate].
  injection Hp as <-. intros Hg. vm_compute in Hg.
  destruct Hg as [[_ Hg] _]. apply Hg. reflexivity.
Defined.

(** C1, as the specification words it, fails: the file ["blue.png"] holds
    one blue pixel, which does not pass the gate, and the call returns the
    path of an adjusted image instead of raising. *)
Lemma adjust_skin_tone_empty_mask_returns :
  cv2_imread Sample.env "blue.png" = Some [[(255, 0, 0)]] /\
  np_where (inRange (hsv_of Sample.env [[(255, 0, 0)]])
                    ImageService.lower_skin ImageService.upper_skin) = [] /\
  ~ (exists e, ImageService.adjust_skin_tone Sample.env "blue.png" DARK = Raise e).
Proof.
  split; [reflexivity|]. split; [reflexivity|].
  intros [e He]. vm_compute in He. discriminate He.
Qed.

(** C4: in a call that returns, every skin pixel of the adjusted HSV image
    holds, channel by channel, its former value times the factor of the
    channel, clipped to the numbers from 0 to 255 (once for the hue, twice
    for saturation and value) and cast to [uint8]; each clipped value is a
    number from 0 to 255 and each channel written lies in [0, 255].  The
    clipping of the hue is the same as for the other channels: a value
    above 255 becomes 255 and a value between 179 and 255 goes through
    unchanged. *)
Theorem adjust_skin_tone_clamps (E : externals) (image_path : string)
    (target_tone : SkinTone) (loaded : ndarray) :
  cv2_imread E image_path = Some loaded ->
  (forall a, Image_save E (ImageService.adjusted_path_of E image_path) a
             = Returns tt) ->
  exists l st adj,
    ImageService.adjust_skin_tone_run E image_path target_tone
    = Ok (ImageService.adjusted_path_of E image_path, l, st) /\
    st !! ImageService.adjusted_hsv l = Some adj /\
    (forall i j h s v,
       pixel_at (hsv_of E loaded) i j = Some (h, s, v) -> skin_gate (h, s, v) ->
       exists fh fs fv : float64,
         fh = F64.clip (ImageService.scale
                          (factors target_tone (hsv_of E loaded)).1.1 h) 0 255 /\
         fs = F64.clip (F64.clip (ImageService.scale
                          (factors target_tone (hsv_of E loaded)).1.2 s) 0 255)
                       0 255 /\
         fv = F64.clip (F64.clip (ImageService.scale
                          (factors target_tone (hsv_of E loaded)).2 v) 0 255)
                       0 255 /\
         between 0 255 fh /\ between 0 255 fs /\ between 0 255 fv /\
         pixel_at adj i j = Some (F64.to_u8 fh, F64.to_u8 fs, F64.to_u8 fv) /\
         u8 (F64.to_u8 fh) /\ u8 (F64.to_u8 fs) /\ u8 (F64.to_u8 fv)) /\
    (forall x, F64.ltb (F64.of_Z 255) x = true ->
               F64.clip x 0 255 = F64.of_Z 255) /\
    (forall x, F64.ltb (F64.of_Z 179) x = true ->
               F64.ltb x (F64.of_Z 255) = true -> F64.clip x 0 255 = x).
Proof.
  intros Hload Hsave.
  eexists _, _, _. split; [apply adjust_skin_tone_run_saved; eassumption|].
  split; [reflexivity|]. split; [|split].
  - intros i j h s v Hp Hg. eexists _, _, _.
    do 3 (split; [reflexivity|]).
    destruct (skin_gate_u8 _ Hg) as (Hh & Hs & Hs0 & Hv & Hv0). simpl in *.
    destruct (target_hsv_values_u8 target_tone) as (Ht0 & Ht1 & Ht2).
    split; [|split; [|split; [|split]]].
    + apply clip_between. unfold factors. cbn [fst snd]. rewrite Ht0.
      apply scale_zero_target, Hh.
    + apply clip_between, clip_not_nan. unfold factors. cbn [fst snd].
      apply scale_not_nan; assumption.
    + apply clip_between, clip_not_nan. unfold factors. cbn [fst snd].
      apply scale_not_nan; assumption.
    + apply (retinted_skin E target_tone loaded i j (h, s, v) Hp Hg).
    + repeat split; apply to_u8_range.
  - exact clip_above.
  - intros x H179 H255. apply clip_inside; [|assumption].
    eapply ltb_trans; [|exact H179]. reflexivity.
Qed.

Lemma adjust_skin_tone_clamps_witness :
  exists l st adj,
    ImageService.adjust_skin_tone_run Sample.env "face.png" VERY_LIGHT
    = Ok (ImageService.adjusted_path_of Sample.env "face.png", l, st) /\
    st !! ImageService.adjusted_hsv l = Some adj /\
    pixel_at adj 0 0 = Some (0, 30, 240).
Proof.
  destruct (adjust_skin_tone_clamps Sample.env "face.png" VERY_LIGHT
              [[(120, 150, 200); (255, 0, 0)]] eq_refl (fun _ => eq_refl))
    as (l & st & adj & Hrun & Hadj & Hpx & _).
  exists l, st, adj. split; [exact Hrun|]. split; [exact Hadj|].
  destruct (Hpx 0%nat 0%nat 11 102 200 eq_refl)
    as (fh & fs & fv & -> & -> & -> & _ & _ & _ & -> & _).
  - unfold skin_gate. lia.
  - vm_compute. reflexivity.
Defined.

(** C8: in a call that returns, the array that is saved has the height of
    the decoded image and, row by row, its width; its pixels are triples
    like those of the input, and their channels are 8-bit values as soon as
    the conversion back to RGB yields 8-bit values. *)
Theorem adjust_skin_tone_shape (E : externals) (image_path : string)
    (target_tone : SkinTone) (loaded : ndarray) :
  cv2_imread E image_path = Some loaded ->
  (forall a, Image_save E (ImageService.adjusted_path_of E image_path) a
             = Returns tt) ->
  exists l st out,
    ImageService.adjust_skin_tone_run E image_path target_tone
    = Ok (ImageService.adjusted_path_of E image_path, l, st) /\
    st !! ImageService.adjusted_rgb l = Some out /\
    shape out = shape loaded /\
    ((forall p, u8_pixel (cv2_HSV2RGB E p)) -> u8_array out).
Proof.
  intros Hload Hsave.
  eexists _, _, _. split; [apply adjust_skin_tone_run_saved; eassumption|].
  split; [reflexivity|]. split.
  - change (shape (cvtColor (cv2_HSV2RGB E)
                      (retinted target_tone (hsv_of E loaded))) = shape loaded).
    rewrite shape_cvtColor, shape_retinted. unfold hsv_of.
    rewrite !shape_cvtColor. reflexivity.
  - intros Hu8.
    change (u8_array (cvtColor (cv2_HSV2RGB E)
                        (retinted target_tone (hsv_of E loaded)))).
    apply u8_array_cvtColor, Hu8.
Qed.

Lemma adjust_skin_tone_shape_witness :
  exists l st out,
    ImageService.adjust_skin_tone_run Sample.env "portrait.jpg" DARK
    = Ok (ImageService.adjusted_path_of Sample.env "portrait.jpg", l, st) /\
    st !! ImageService.adjusted_rgb l = Some out /\
    shape out = (2%nat, [3%nat; 3%nat]).
Proof.
  destruct (adjust_skin_tone_shape Sample.env "portrait.jpg" DARK
              [ [ (120, 150, 200); (90, 60, 30); (96, 128, 224) ];
                [ (255, 255, 255); (100, 140, 210); (0, 0, 0) ] ]
              eq_refl (fun _ => eq_refl))
    as (l & st & out & Hrun & Hout & Hshape & _).
  exists l, st, out. split; [exact Hrun|]. split; [exact Hout|]. exact Hshape.
Defined.




(** C10: the hue of the target is 0 for every tone, so that, when the mean
    hue of the skin pixels is above zero, the factor of the hue is the
    quotient [0 / mean = 0.0] and, in a call that returns, every skin pixel
    of the adjusted HSV image has hue 0. *)
Theorem adjust_skin_tone_hue_zero (E : externals) (image_path : string)
    (target_tone : SkinTone) (loaded : ndarray) :
  cv2_imread E image_path = Some loaded ->
  (forall a, Image_save E (ImageService.adjusted_path_of E image_path) a
             = Returns tt) ->
  F64.ltb (F64.of_Z 0) (F64.mean (col0 (masked_pixels (hsv_of E loaded)))) = true ->
  (forall t, (ImageService.target_hsv_values t).1.1 = 0) /\
  (factors target_tone (hsv_of E loaded)).1.1
  = ImageService.Quotient (S754_zero false) /\
  exists l st adj,
    ImageService.adjust_skin_tone_run E image_path target_tone
    = Ok (ImageService.adjusted_path_of E image_path, l, st) /\
    st !! ImageService.adjusted_hsv l = Some adj /\
    forall i j p,
      pixel_at (hsv_of E loaded) i j = Some p -> skin_gate p ->
      exists s v, pixel_at adj i j = Some (0, s, v).
Proof.
  intros Hload Hsave Hmean.
  assert (Hfactor : (factors target_tone (hsv_of E loaded)).1.1
                    = ImageService.factor_of 0 (col0 (masked_pixels (hsv_of E loaded)))).
  { unfold factors. cbn [fst snd].
    rewrite (proj1 (target_hsv_values_u8 target_tone)). reflexivity. }
  split; [intros t; apply target_hsv_values_u8|]. split.
  - rewrite Hfactor. apply (scale_zero_target _ 0); [unfold u8; lia | exact Hmean].
  - eexists _, _, _. split; [apply adjust_skin_tone_run_saved; eassumption|].
    split; [reflexivity|]. intros i j [[h s] v] Hp Hg.
    rewrite (retinted_skin E target_tone loaded i j _ Hp Hg). unfold retint.
    rewrite Hfactor.
    destruct (skin_gate_u8 _ Hg) as (Hh & _). simpl in Hh.
    rewrite (proj2 (proj2 (scale_zero_target _ h Hh) Hmean)). eauto.
Qed.

Lemma adjust_skin_tone_hue_zero_witness :
  exists l st adj,
    ImageService.adjust_skin_tone_run Sample.env "portrait.jpg" MEDIUM
    = Ok (ImageService.adjusted_path_of Sample.env "portrait.jpg", l, st) /\
    st !! ImageService.adjusted_hsv l = Some adj /\
    exists s v, pixel_at adj 1 1 = Some (0, s, v).
Proof.
  destruct (adjust_skin_tone_hue_zero Sample.env "portrait.jpg" MEDIUM
              [ [ (120, 150, 200); (90, 60, 30); (96, 128, 224) ];
                [ (255, 255, 255); (100, 140, 210); (0, 0, 0) ] ]
              eq_refl (fun _ => eq_refl) eq_refl)
    as (_ & _ & l & st & adj & Hrun & Hadj & Hpx).
  exists l, st, adj. split; [exact Hrun|]. split; [exact Hadj|].
  apply (Hpx 1%nat 1%nat (10, 134, 210) eq_refl).
  unfold skin_gate. lia.
Defined.


(* ================================================================== *)
(** * Paths and URLs *)
(* ================================================================== *)

Section Paths.

Lemma append_cons (x : ascii) (a b : string) :
  String x a +:+ b = String x (a +:+ b).
Proof. reflexivity. Qed.

Lemma append_assoc (a b c : string) : (a +:+ b) +:+ c = a +:+ (b +:+ c).
Proof.
  induction a as [|x a IH]; [reflexivity|].
  rewrite !append_cons, IH. reflexivity.
Qed.

Lemma append_nil_r (a : string) : a +:+ "" = a.
Proof.
  induction a as [|x a IH]; [reflexivity|]. rewrite append_cons, IH. reflexivity.
Qed.

Lemma has_slash_append (a b : string) :
  has_slash (a +:+ b) = has_slash a || has_slash b.
Proof.
  induction a as [|x a IH]; [reflexivity|].
  rewrite append_cons. simpl. rewrite IH. apply orb_assoc.
Qed.

(** Without a ["/"] to reset it, the scan only accumulates. *)
Lemma basename_no_slash (acc s : string) :
  has_slash s = false -> ImageService.basename acc s = acc +:+ s.
Proof.
  revert acc. induction s as [|c s IH]; intros acc Hs; simpl in *.
  - symmetry. apply append_nil_r.
  - apply orb_false_elim in Hs as [Hc Hs]. rewrite Hc, IH by assumption.
    apply append_assoc.
Qed.

(** What stands before a ["/"] is forgotten. *)
Lemma basename_after_slash (acc s t : string) :
  ImageService.basename acc (s +:+ String "/" t) = ImageService.basename "" t.
Proof.
  revert acc. induction s as [|c s IH]; intros acc; [reflexivity|].
  rewrite append_cons. simpl. destruct (Ascii.eqb c "/"); apply IH.
Qed.

Lemma basename_has_no_slash (acc s : string) :
  has_slash acc = false -> has_slash (ImageService.basename acc s) = false.
Proof.
  revert acc. induction s as [|c s IH]; intros acc Hacc; simpl; [assumption|].
  destruct (Ascii.eqb c "/") eqn:Hc; apply IH; [reflexivity|].
  rewrite has_slash_append, Hacc. simpl. rewrite Hc. reflexivity.
Qed.

Lemma ends_with_slash (a : string) :
  String.eqb (substring (String.length a - 1) 1 a) "/" = true ->
  exists a', a = a' +:+ "/".
Proof.
  induction a as [|c a IH]; [discriminate|].
  destruct a as [|c' a'].
  - simpl. intros H. exists "".
    destruct (Ascii.eqb_spec c "/") as [->|]; [reflexivity | discriminate].
  - intros H.
    replace (String.length (String c (String c' a')) - 1)%nat
      with (S (String.length (String c' a') - 1)) in H by (simpl; lia).
    destruct (IH H) as [a'' Ha]. exists (String c a'').
    rewrite append_cons, <- Ha. reflexivity.
Qed.

(** The last component of a joined path is the name that was joined, when
    the name holds no ["/"]. *)
Lemma basename_path_join (a b : string) :
  has_slash b = false -> ImageService.basename "" (path_join a b) = b.
Proof.
  intros Hb.
  assert (Hjoin : path_join a b
                  = match a with
                    | EmptyString => b
                    | _ => if String.eqb (substring (String.length a - 1) 1 a) "/"
                           then a +:+ b else a +:+ "/" +:+ b
                    end).
  { destruct b as [|c b]; [reflexivity|]. simpl in Hb.
    apply orb_false_elim in Hb as [Hc _].
    destruct c as [[] [] [] [] [] [] [] []]; try discriminate Hc; reflexivity. }
  rewrite Hjoin. destruct a as [|c a]; [apply (basename_no_slash "" b Hb)|].
  destruct (String.eqb _ "/") eqn:Hend.
  - destruct (ends_with_slash _ Hend) as [a' ->].
    rewrite append_assoc. change ("/" +:+ b) with (String "/" b).
    rewrite basename_after_slash. apply (basename_no_slash "" b Hb).
  - change (String c a +:+ "/" +:+ b) with (String c a +:+ String "/" b).
    rewrite basename_after_slash. apply (basename_no_slash "" b Hb).
Qed.

End Paths.

(** X1: [get_image_url] answers ["/uploads/"] followed by a name without
    any ["/"], whatever path it is given: a path with directories, also
    [".."], is cut down to its last component, and a path without ["/"] is
    taken whole. *)
Theorem get_image_url_flat (file_path : string) :
  exists name,
    ImageService.get_image_url file_path = "/uploads/" +:+ name /\
    has_slash name = false /\
    (has_slash file_path = false -> name = file_path) /\
    (forall dir,
       ImageService.get_image_url (dir +:+ String "/" file_path)
       = ImageService.get_image_url file_path).
Proof.
  exists (ImageService.basename "" file_path).
  split; [reflexivity|]. split; [apply basename_has_no_slash; reflexivity|].
  split.
  - intros H. apply (basename_no_slash "" file_path H).
  - intros dir. unfold ImageService.get_image_url.
    rewrite basename_after_slash. reflexivity.
Qed.

(** X2: for an input path whose extension, what follows its last dot, is
    in ASCII, the URL of the image written by [adjust_skin_tone] names the
    file ["adjusted_<uuid>.<ext>"], with that extension in lower case,
    whatever the upload folder, as long as neither the identifier nor the
    extension holds a ["/"]. *)
Theorem get_image_url_adjusted (E : externals) (image_path : string) :
  is_ascii (last_field "" image_path) = true ->
  has_slash (uuid4 E) = false ->
  has_slash (str_lower (last_field "" image_path)) = false ->
  ImageService.get_image_url (ImageService.adjusted_path_of E image_path)
  = "/uploads/adjusted_" +:+ uuid4 E +:+ "."
    +:+ str_lower (last_field "" image_path).
Proof.
  intros _ Hu He. unfold ImageService.get_image_url, ImageService.adjusted_path_of.
  rewrite basename_path_join; [reflexivity|].
  rewrite !has_slash_append, Hu, He. reflexivity.
Qed.

Lemma get_image_url_adjusted_witness :
  ImageService.get_image_url
    (ImageService.adjusted_path_of Sample.env "photos/Holiday.JPG")
  = "/uploads/adjusted_3f0c1a52-7d4e-4b8a-9c61-5e2d8a7b4f10.jpg".
Proof.
  apply (get_image_url_adjusted Sample.env "photos/Holiday.JPG"); reflexivity.
Defined.

(* ================================================================== *)
(** * Uploads *)
(* ================================================================== *)

Section Uploads.

Lemma disk_read_write (d : disk) (p q : string) (content : list Byte.byte) :
  disk_read (disk_write d p content) q
  = if String.eqb p q then Some content else disk_read d q.
Proof. reflexivity. Qed.

Lemma str_in_no_slash (x : string) (xs : list string) :
  Forall (fun y => has_slash y = false) xs -> str_in x xs = true ->
  has_slash x = false.
Proof.
  intros Hall Hin. unfold str_in in Hin.
  apply existsb_exists in Hin as (y & Hy & Heq).
  apply String.eqb_eq in Heq. subst y.
  rewrite Forall_forall in Hall. apply Hall, list_elem_of_In, Hy.
Qed.

End Uploads.

(** X3: for a file name whose last dot-separated field is in ASCII,
    [save_upload] returns only when that field, in lower case, is an
    allowed extension; it then returns
    ["<folder>/<uuid>.<ext>"], the file at that path holds exactly the data
    given and every other file is as before.  Whatever it raises is an
    [ApplicationError]: of kind [VALIDATION_ERROR], without details, when
    the extension is not allowed, and of kind [FILE_ERROR], with the text of
    the original exception, when the extension is allowed and the file
    cannot be written.  An allowed extension and a writable path give a
    result. *)
Theorem save_upload_outcome (U : uploads) (E : externals)
    (file_data : list Byte.byte) (filename : string) (d : disk) :
  is_ascii (last_field "" filename) = true ->
  let ext := str_lower (last_field "" filename) in
  let file_path := path_join (upload_folder E) (uuid4 E +:+ "." +:+ ext) in
  (forall p d',
     Upload.save_upload U E file_data filename d = Ok (p, d') ->
     p = file_path /\ str_in ext (allowed_extensions U) = true /\
     disk_read d' p = Some file_data /\
     forall q, q <> p -> disk_read d' q = disk_read d q) /\
  (forall e,
     Upload.save_upload U E file_data filename d = Raise e ->
     exists a, e = AppExc a /\
       ((error_code a = VALIDATION_ERROR /\ details a = [] /\
         str_in ext (allowed_extensions U) = false) \/
        (error_code a = FILE_ERROR /\
         message a = "Failed to save uploaded file" /\
         str_in ext (allowed_extensions U) = true /\
         exists text, open_wb U file_path = Throws text /\
                      details a = [("original_error", text)]))) /\
  (str_in ext (allowed_extensions U) = true ->
   open_wb U file_path = Returns tt ->
   exists d', Upload.save_upload U E file_data filename d = Ok (file_path, d')).
Proof.
  intros _ ext file_path.
  unfold Upload.save_upload, Upload.save_upload_body.
  fold ext. fold file_path.
  destruct (str_in ext (allowed_extensions U)) eqn:Hin; simpl.
  - destruct (open_wb U file_path) as [[]|text] eqn:Hopen; simpl.
    + split; [|split].
      * intros p d' [= <- <-]. repeat split.
        -- rewrite disk_read_write, String.eqb_refl. reflexivity.
        -- intros q Hq. rewrite disk_read_write.
           destruct (String.eqb_spec file_path q); congruence.
      * discriminate.
      * eauto.
    + split; [discriminate|]. split; [|discriminate].
      intros e [= <-]. eexists. split; [reflexivity|]. right.
      repeat split. eauto.
  - split; [discriminate|]. split; [|discriminate].
    intros e [= <-]. eexists. split; [reflexivity|]. left. repeat split.
Qed.

Lemma save_upload_outcome_witness :
  exists d',
    Upload.save_upload default_uploads Sample.env [Byte.x89; Byte.x50]
                       "holiday.v2.PNG" []
    = Ok ("uploads/3f0c1a52-7d4e-4b8a-9c61-5e2d8a7b4f10.png", d').
Proof.
  apply (proj2 (proj2 (save_upload_outcome default_uploads Sample.env
                         [Byte.x89; Byte.x50] "holiday.v2.PNG" [] eq_refl)));
    reflexivity.
Defined.

(** X4: with identifiers and allowed extensions free of ["/"], the URL of a
    file that [save_upload] has stored under a name whose last
    dot-separated field is in ASCII is ["/uploads/<uuid>.<ext>"], with that
    field in lower case as extension, whatever the upload folder is. *)
Theorem get_image_url_saved (U : uploads) (E : externals)
    (file_data : list Byte.byte) (filename : string) (d d' : disk)
    (file_path : string) :
  is_ascii (last_field "" filename) = true ->
  has_slash (uuid4 E) = false ->
  Forall (fun x => has_slash x = false) (allowed_extensions U) ->
  Upload.save_upload U E file_data filename d = Ok (file_path, d') ->
  ImageService.get_image_url file_path
  = "/uploads/" +:+ uuid4 E +:+ "." +:+ str_lower (last_field "" filename).
Proof.
  intros _ Hu Hall Hsave. apply reraise_as_Ok in Hsave.
  unfold Upload.save_upload_body in Hsave.
  destruct (str_in _ (allowed_extensions U)) eqn:Hin; [|discriminate].
  simpl in Hsave. apply bind_Ok in Hsave as (? & _ & [= <- _]).
  unfold ImageService.get_image_url. rewrite basename_path_join; [reflexivity|].
  rewrite !has_slash_append, Hu, (str_in_no_slash _ _ Hall Hin). reflexivity.
Qed.

Lemma get_image_url_saved_witness :
  ImageService.get_image_url "uploads/3f0c1a52-7d4e-4b8a-9c61-5e2d8a7b4f10.jpg"
  = "/uploads/3f0c1a52-7d4e-4b8a-9c61-5e2d8a7b4f10.jpg".
Proof.
  apply (get_image_url_saved default_uploads Sample.env [] "Portrait.JPG" []
           [("uploads/3f0c1a52-7d4e-4b8a-9c61-5e2d8a7b4f10.jpg", [])]).
  - reflexivity.
  - reflexivity.
  - repeat constructor.
  - reflexivity.
Defined.

(* ================================================================== *)
(** * Outcomes of [adjust_skin_tone] *)
(* ================================================================== *)

Section AdjustOutcome.

Import ImageService.

Lemma adjust_skin_tone_run_None (E : externals) (image_path : string)
    (target_tone : SkinTone) :
  cv2_imread E image_path = None ->
  adjust_skin_tone_run E image_path target_tone
  = Raise (AppExc (mkApplicationError "Failed to load image"
                     IMAGE_PROCESSING_ERROR [])).
Proof.
  intros Hnone. unfold adjust_skin_tone_run, adjust_skin_tone_body, load.
  rewrite Hnone. reflexivity.
Qed.

(** Whatever a call raises is an [ApplicationError] of kind
    [IMAGE_PROCESSING_ERROR]. *)
Lemma adjust_skin_tone_Raise (E : externals) (image_path : string)
    (target_tone : SkinTone) (e : exn) :
  adjust_skin_tone E image_path target_tone = Raise e ->
  exists a, e = AppExc a /\ error_code a = IMAGE_PROCESSING_ERROR.
Proof.
  unfold adjust_skin_tone.
  destruct (cv2_imread E image_path) as [loaded|] eqn:Hload.
  - rewrite (adjust_skin_tone_run_eq E image_path target_tone loaded Hload).
    cbv zeta. destruct (Image_save _ _ _) as [[]|text]; simpl;
      [discriminate|]. intros [= <-]. eauto.
  - rewrite (adjust_skin_tone_run_None E image_path target_tone Hload).
    simpl. intros [= <-]. eauto.
Qed.

End AdjustOutcome.

(** X5: [adjust_skin_tone] raises "Failed to load image" when the file
    cannot be decoded; once it is decoded, nothing in the processing of the
    pixels raises: the call returns the path of the adjusted image when the
    save returns, and raises "Failed to adjust skin tone", with the text of
    the exception of the save, when it does not. *)
Theorem adjust_skin_tone_outcome (E : externals) (image_path : string)
    (target_tone : SkinTone) :
  (cv2_imread E image_path = None ->
   ImageService.adjust_skin_tone E image_path target_tone
   = Raise (AppExc (mkApplicationError "Failed to load image"
                      IMAGE_PROCESSING_ERROR []))) /\
  (forall loaded,
     cv2_imread E image_path = Some loaded ->
     ImageService.adjust_skin_tone E image_path target_tone
     = match Image_save E (ImageService.adjusted_path_of E image_path)
               (cvtColor (cv2_HSV2RGB E) (retinted target_tone (hsv_of E loaded)))
       with
       | Returns _ => Ok (ImageService.adjusted_path_of E image_path)
       | Throws text =>
           Raise (AppExc (mkApplicationError "Failed to adjust skin tone"
                            IMAGE_PROCESSING_ERROR [("original_error", text)]))
       end).
Proof.
  unfold ImageService.adjust_skin_tone. split.
  - intros Hnone. rewrite adjust_skin_tone_run_None by assumption. reflexivity.
  - intros loaded Hload.
    rewrite (adjust_skin_tone_run_eq E image_path target_tone loaded Hload).
    cbv zeta. destruct (Image_save _ _ _) as [[]|text]; reflexivity.
Qed.

Lemma adjust_skin_tone_outcome_witness :
  ImageService.adjust_skin_tone sample_env_no_save "face.png" LIGHT
  = Raise (AppExc (mkApplicationError "Failed to adjust skin tone"
                     IMAGE_PROCESSING_ERROR
                     [("original_error", "unknown file extension: .heic")])).
Proof.
  exact (proj2 (adjust_skin_tone_outcome sample_env_no_save "face.png" LIGHT)
           [[(120, 150, 200); (255, 0, 0)]] eq_refl).
Defined.

(** X6: whatever [detect_skin_tone], [adjust_skin_tone] or [save_upload]
    raises, [handle_error] turns it into a payload that carries the code of
    an [ApplicationError]: ["IMAGE_PROCESSING_ERROR"] for the two image
    functions, ["VALIDATION_ERROR"] or ["FILE_ERROR"] for the upload, and
    never ["INTERNAL_ERROR"]. *)
Theorem handle_error_of_services (e : exn) :
  (forall E image_path,
     ImageService.detect_skin_tone E image_path = Raise e ->
     payload_error (ErrorHandler.handle_error e) = "IMAGE_PROCESSING_ERROR") /\
  (forall E image_path target_tone,
     ImageService.adjust_skin_tone E image_path target_tone = Raise e ->
     payload_error (ErrorHandler.handle_error e) = "IMAGE_PROCESSING_ERROR") /\
  (forall U E file_data filename d,
     Upload.save_upload U E file_data filename d = Raise e ->
     payload_error (ErrorHandler.handle_error e) = "VALIDATION_ERROR" \/
     payload_error (ErrorHandler.handle_error e) = "FILE_ERROR").
Proof.
  split; [|split].
  - intros E image_path He. unfold ImageService.detect_skin_tone in He.
    destruct (ImageService.detect_skin_tone_body E image_path) as [r|e0] eqn:Hb;
      [discriminate|].
    apply detect_skin_tone_body_Raise in Hb as [[_ ->]|[text ->]];
      simpl in He; injection He as <-; reflexivity.
  - intros E image_path target_tone He.
    apply adjust_skin_tone_Raise in He as (a & -> & Ha). simpl. rewrite Ha.
    reflexivity.
  - intros U E file_data filename d He.
    unfold Upload.save_upload, Upload.save_upload_body in He.
    destruct (str_in _ (allowed_extensions U)); simpl in He.
    + destruct (open_wb U _) as [[]|text]; simpl in He; [discriminate|].
      injection He as <-. right. reflexivity.
    + injection He as <-. left. reflexivity.
Qed.

Lemma handle_error_of_services_witness :
  payload_error
    (ErrorHandler.handle_error
       (AppExc (mkApplicationError "Failed to load image"
                  IMAGE_PROCESSING_ERROR [])))
  = "IMAGE_PROCESSING_ERROR".
Proof.
  apply (proj1 (handle_error_of_services _) Sample.env "notes.txt").
  reflexivity.
Defined.

(** X7: for every colour of 8-bit components, such as the colours of the
    metadata of [detect_skin_tone], the code [#rrggbb] has seven characters
    and reads back as the colour, so that two colours with the same code
    are the same colour. *)
Theorem hex_of_color_round_trip (c c' : color) :
  is_color c -> is_color c' ->
  parse_hex_code (hex_of_color c) = Some c /\
  String.length (hex_of_color c) = 7%nat /\
  (hex_of_color c = hex_of_color c' -> c = c').
Proof.
  intros Hc Hc'. split; [apply parse_hex_of_color, Hc|]. split.
  - destruct c as [[r g] b]. destruct Hc as (Hr & Hg & Hb).
    destruct (fmt_02x_u8 r Hr) as (r1 & r0 & Er & _).
    destruct (fmt_02x_u8 g Hg) as (g1 & g0 & Eg & _).
    destruct (fmt_02x_u8 b Hb) as (b1 & b0 & Eb & _).
    unfold hex_of_color. rewrite Er, Eg, Eb. reflexivity.
  - intros Heq.
    pose proof (parse_hex_of_color c Hc) as H1.
    pose proof (parse_hex_of_color c' Hc') as H2.
    rewrite Heq in H1. congruence.
Qed.

Lemma hex_of_color_round_trip_witness :
  parse_hex_code (hex_of_color (200, 150, 120)) = Some (200, 150, 120).
Proof.
  apply (hex_of_color_round_trip (200, 150, 120) (0, 0, 0));
    unfold is_color, u8; lia.
Defined.

(** X8: the classification is monotone: of two lightness values, the
    greater never gets a darker tone than the smaller. *)
Theorem tone_of_lightness_monotone (l1 l2 : float64) :
  F64.ltb l1 l2 = true ->
  tone_rank (ImageService.tone_of_lightness l2)
  <= tone_rank (ImageService.tone_of_lightness l1).
Proof.
  intros Hlt.
  assert (Hup : forall c, F64.ltb (F64.of_Z c) l1 = true ->
                          F64.ltb (F64.of_Z c) l2 = true)
    by (intros c Hc; exact (ltb_trans _ _ _ Hc Hlt)).
  pose proof (Hup 85) as H85. pose proof (Hup 75) as H75.
  pose proof (Hup 65) as H65. pose proof (Hup 55) as H55.
  pose proof (Hup 45) as H45. pose proof (Hup 35) as H35.
  destruct (thresholds_descend l2) as (D1 & D2 & D3 & D4 & D5).
  unfold ImageService.tone_of_lightness.
  destruct (F64.ltb (F64.of_Z 85) l1);
    [rewrite (H85 eq_refl); simpl; lia|].
  destruct (F64.ltb (F64.of_Z 75) l1).
  { specialize (H75 eq_refl). rewrite H75.
    destruct (F64.ltb (F64.of_Z 85) l2); simpl; lia. }
  destruct (F64.ltb (F64.of_Z 65) l1).
  { specialize (H65 eq_refl). rewrite H65.
    destruct (F64.ltb (F64.of_Z 85) l2), (F64.ltb (F64.of_Z 75) l2);
      simpl; lia. }
  destruct (F64.ltb (F64.of_Z 55) l1).
  { specialize (H55 eq_refl). rewrite H55.
    destruct (F64.ltb (F64.of_Z 85) l2), (F64.ltb (F64.of_Z 75) l2),
             (F64.ltb (F64.of_Z 65) l2); simpl; lia. }
  destruct (F64.ltb (F64.of_Z 45) l1).
  { specialize (H45 eq_refl). rewrite H45.
    destruct (F64.ltb (F64.of_Z 85) l2), (F64.ltb (F64.of_Z 75) l2),
             (F64.ltb (F64.of_Z 65) l2), (F64.ltb (F64.of_Z 55) l2);
      simpl; lia. }
  destruct (F64.ltb (F64.of_Z 35) l1).
  { specialize (H35 eq_refl). rewrite H35.
    destruct (F64.ltb (F64.of_Z 85) l2), (F64.ltb (F64.of_Z 75) l2),
             (F64.ltb (F64.of_Z 65) l2), (F64.ltb (F64.of_Z 55) l2),
             (F64.ltb (F64.of_Z 45) l2); simpl; lia. }
  destruct (F64.ltb (F64.of_Z 85) l2), (F64.ltb (F64.of_Z 75) l2),
           (F64.ltb (F64.of_Z 65) l2), (F64.ltb (F64.of_Z 55) l2),
           (F64.ltb (F64.of_Z 45) l2), (F64.ltb (F64.of_Z 35) l2);
    simpl; lia.
Qed.

Lemma tone_of_lightness_monotone_witness :
  tone_rank (ImageService.tone_of_lightness (F64.of_Z 80))
  <= tone_rank (ImageService.tone_of_lightness (F64.of_Z 50)).
Proof.
  apply (tone_of_lightness_monotone (F64.of_Z 50) (F64.of_Z 80)). reflexivity.
Defined.

(** X9: whatever the target tone, its HSV target has hue 0 and passes the
    skin gate itself; from a tone to a darker one the target saturation
    grows and the target value falls. *)
Theorem target_hsv_values_ordered (t1 t2 : SkinTone) :
  (ImageService.target_hsv_values t1).1.1 = 0 /\
  skin_gate (ImageService.target_hsv_values t1) /\
  (tone_rank t1 < tone_rank t2 ->
   (ImageService.target_hsv_values t1).1.2
   < (ImageService.target_hsv_values t2).1.2 /\
   (ImageService.target_hsv_values t2).2
   < (ImageService.target_hsv_values t1).2).
Proof. destruct t1, t2; simpl; lia. Qed.

Lemma target_hsv_values_ordered_witness :
  (ImageService.target_hsv_values LIGHT).1.2
  < (ImageService.target_hsv_values DARK).1.2 /\
  (ImageService.target_hsv_values DARK).2
  < (ImageService.target_hsv_values LIGHT).2.
Proof.
  apply (proj2 (proj2 (target_hsv_values_ordered LIGHT DARK))). simpl. lia.
Defined.

(** X10: every colour of the table of names is given its own name, and an
    8-bit colour is always given one of the names of the table, never
    ["Unknown"]. *)
Theorem get_color_name_table (rgb : color) :
  (forall name, (rgb, name) ∈ ColorPalette.color_names ->
     ColorPalette.get_color_name rgb = name) /\
  (is_color rgb ->
   exists c, (c, ColorPalette.get_color_name rgb) ∈ ColorPalette.color_names /\
             ColorPalette.get_color_name rgb <> "Unknown").
Proof.
  split.
  - intros name Hin. unfold ColorPalette.color_names in Hin.
    repeat (apply elem_of_cons in Hin as [[= -> ->]|Hin];
            [vm_compute; reflexivity|]).
    apply elem_of_nil in Hin. contradiction.
  - intros Hrgb.
    destruct (closest_in_nearest rgb Hrgb ColorPalette.color_names)
      as (i & c & Hi & _); [discriminate | exact color_names_colors|].
    fold (ColorPalette.get_color_name rgb) in Hi.
    assert (Hin : (c, ColorPalette.get_color_name rgb) ∈ ColorPalette.color_names)
      by (eapply list_elem_of_lookup_2, Hi).
    exists c. split; [exact Hin|].
    intros Heq. rewrite Heq in Hin. unfold ColorPalette.color_names in Hin.
    repeat (apply elem_of_cons in Hin as [[= _ _]|Hin]).
    apply elem_of_nil in Hin. contradiction.
Qed.

Lemma get_color_name_table_witness :
  ColorPalette.get_color_name (219, 112, 147) = "Pale Violet Red".
Proof.
  apply (proj1 (get_color_name_table (219, 112, 147))).
  unfold ColorPalette.color_names. do 17 right. left.
Defined.

(* ================================================================== *)
(** * The average skin colour *)
(* ================================================================== *)

Section Average.

Import ImageService.

Lemma take_map_where_row (g : pixel -> pixel) (f : pixel -> Z) (a : ndarray)
    (i : nat) (pre suf : list pixel) :
  a !! i = Some (map g (pre ++ suf)) ->
  take a (where_row i (length pre) (map f suf))
  = Ok (map g (filter (fun p => 0 < f p) suf)).
Proof.
  revert pre. induction suf as [|p suf IH]; intros pre Ha; [reflexivity|].
  assert (Hnext : take a (where_row i (S (length pre)) (map f suf))
                  = Ok (map g (filter (fun p => 0 < f p) suf))).
  { replace (S (length pre)) with (length (pre ++ [p]))
      by (rewrite length_app; simpl; lia).
    apply IH. rewrite <- app_assoc. exact Ha. }
  simpl. rewrite filter_cons. destruct (Z.ltb_spec 0 (f p)) as [Hp|Hp].
  - rewrite decide_True by assumption.
    change (take a ((i, length pre) :: ?l)) with (take a ([(i, length pre)] ++ l)).
    rewrite take_app, Hnext. unfold take, item. simpl. rewrite Ha.
    rewrite lookup_map, lookup_app_r, Nat.sub_diag by lia. reflexivity.
  - rewrite decide_False by lia. exact Hnext.
Qed.

Lemma take_map_where_rows (g : pixel -> pixel) (f : pixel -> Z)
    (a pre rows : ndarray) :
  a = map (map g) (pre ++ rows) ->
  take a (where_rows (length pre) (map (map f) rows))
  = Ok (map g (filter (fun p => 0 < f p) (concat rows))).
Proof.
  revert pre. induction rows as [|row rows IH]; intros pre Ha; [reflexivity|].
  simpl. rewrite take_app, filter_app, map_app.
  pose proof (take_map_where_row g f a (length pre) [] row) as Hrow.
  simpl in Hrow. rewrite Hrow
    by (subst a; unfold ndarray in *;
        rewrite lookup_map, lookup_app_r, Nat.sub_diag by lia; reflexivity).
  replace (S (length pre)) with (length (pre ++ [row]))
    by (rewrite length_app; simpl; lia).
  rewrite (IH (pre ++ [row])) by (rewrite <- app_assoc; exact Ha).
  reflexivity.
Qed.

(** The masked copy of an image: each pixel kept or zeroed by its own
    mask entry. *)
Lemma bitwise_and_map (f : pixel -> Z) (a : ndarray) :
  bitwise_and a a (map (map f) a)
  = map (map (fun p => and_px (f p) p p)) a.
Proof.
  unfold bitwise_and, zip3_with.
  induction a as [|row a IH]; [reflexivity|]. simpl. f_equal; [|exact IH].
  clear IH. induction row as [|p row IH]; [reflexivity|]. simpl. f_equal.
  exact IH.
Qed.

Lemma and_px_selected (m : Z) (p : pixel) : 0 < m -> and_px m p p = p.
Proof.
  intros Hm. destruct p as [[p0 p1] p2]. unfold and_px.
  destruct (Z.eqb_spec m 0); [lia|]. rewrite !Z.land_diag. reflexivity.
Qed.

Lemma map_filter_fixed (g : pixel -> pixel) (f : pixel -> Z) (l : list pixel) :
  (forall p, 0 < f p -> g p = p) ->
  map g (filter (fun p => 0 < f p) l) = filter (fun p => 0 < f p) l.
Proof.
  intros Hg. induction l as [|p l IH]; [reflexivity|].
  rewrite filter_cons. destruct (decide (0 < f p)); [|exact IH].
  simpl. rewrite IH, Hg by assumption. reflexivity.
Qed.

(** The pixels that [detect_skin_tone] averages are the RGB pixels whose
    HSV conversion passes the gate. *)
Lemma take_skin_rgb (E : externals) (loaded : ndarray) :
  let image_rgb := cvtColor BGR2RGB loaded in
  let skin_mask := inRange (cvtColor (cv2_RGB2HSV E) image_rgb)
                           lower_skin upper_skin in
  take (bitwise_and image_rgb image_rgb skin_mask) (np_where skin_mask)
  = Ok (skin_rgb E loaded).
Proof.
  intros image_rgb skin_mask.
  pose (f := fun p => in_range lower_skin upper_skin (cv2_RGB2HSV E p)).
  assert (Hmask : skin_mask = map (map f) image_rgb).
  { unfold skin_mask, inRange, cvtColor, f. rewrite List.map_map.
    apply List.map_ext. intros row. rewrite List.map_map. reflexivity. }
  rewrite Hmask, bitwise_and_map.
  pose proof (take_map_where_rows (fun p => and_px (f p) p p) f _ []
                image_rgb eq_refl) as Htake.
  simpl in Htake. unfold np_where. rewrite Htake.
  f_equal. apply map_filter_fixed. intros p Hp. apply and_px_selected, Hp.
Qed.

End Average.

(** C2: once the file is decoded and ColorThief has answered,
    [detect_skin_tone] returns the tone that the chain of thresholds gives
    to the lightness L* computed from the average skin colour of the image,
    and reports that lightness.  For every lightness value the chain gives
    the tone whose band holds it: above 85 [VERY_LIGHT], above 75 [LIGHT],
    above 65 [MEDIUM_LIGHT], above 55 [MEDIUM], above 45 [MEDIUM_DARK],
    above 35 [DARK], [VERY_DARK] otherwise, each threshold being excluded
    from the band above it; an image whose lightness is exactly 85.0 is
    classified [LIGHT]. *)
Theorem detect_skin_tone_thresholds (E : externals) (image_path : string)
    (loaded : ndarray) (dominant : color) (colors : list color) :
  cv2_imread E image_path = Some loaded ->
  ColorThief_init E image_path = Returns tt ->
  ColorThief_get_color E image_path = Returns dominant ->
  ColorThief_get_palette E image_path = Returns colors ->
  let avg := match skin_rgb E loaded with
             | [] => dominant
             | _ :: _ => mean_color (skin_rgb E loaded)
             end in
  let l := (color_rgb2lab E (ImageService.unit_color avg)).1.1 in
  (exists tone,
     ImageService.detect_skin_tone E image_path
     = Ok (tone,
           ImageService.mkMetadata
             (ImageService.color_info_of avg)
             (ImageService.color_info_of dominant)
             (map ImageService.color_info_of colors) l) /\
     (forall t, in_band l t <-> t = tone) /\
     (l = F64.of_Z 85 -> tone = LIGHT)) /\
  (forall (x : float64) (t : SkinTone),
     in_band x t <-> ImageService.tone_of_lightness x = t) /\
  ImageService.tone_of_lightness (F64.of_Z 85) = LIGHT.
Proof.
  intros Hload Hinit Hcolor Hpal avg l.
  split; [|split; [exact tone_of_lightness_band | reflexivity]].
  exists (ImageService.tone_of_lightness l). split; [|split].
  - unfold ImageService.detect_skin_tone, ImageService.detect_skin_tone_body,
      ImageService.load.
    rewrite Hload, Hinit, Hcolor, Hpal. simpl.
    pose proof (take_skin_rgb E loaded) as Htake. cbv zeta in Htake.
    rewrite Htake. simpl. unfold l, avg.
    destruct (skin_rgb E loaded); reflexivity.
  - intros t. rewrite tone_of_lightness_band. split; congruence.
  - intros ->. reflexivity.
Qed.

Lemma detect_skin_tone_thresholds_witness :
  ImageService.detect_skin_tone Sample.env_85 "face.png"
  = Ok (LIGHT,
        ImageService.mkMetadata
          (ImageService.mkColorInfo (200, 150, 120) "#c89678")
          (ImageService.mkColorInfo (200, 150, 120) "#c89678")
          [ImageService.mkColorInfo (200, 150, 120) "#c89678"]
          (F64.of_Z 85)).
Proof.
  destruct (detect_skin_tone_thresholds Sample.env_85 "face.png"
              [[(120, 150, 200); (255, 0, 0)]] (200, 150, 120)
              [(200, 150, 120)] eq_refl eq_refl eq_refl eq_refl)
    as [(tone & Hrun & _ & H85) _].
  rewrite Hrun. rewrite (H85 eq_refl). reflexivity.
Defined.

(** X11: once the file is decoded and the three calls to ColorThief have
    returned, [detect_skin_tone] returns: nothing in the processing of the
    pixels raises.  The average skin colour is, channel by channel, the
    truncated mean of the RGB pixels whose HSV conversion passes the gate
    when there is such a pixel, and the dominant colour otherwise; the tone
    is the classification of its lightness and the metadata carry the
    dominant colour and the palette as ColorThief gave them. *)
Theorem detect_skin_tone_outcome (E : externals) (image_path : string)
    (loaded : ndarray) (dominant : color) (colors : list color) :
  cv2_imread E image_path = Some loaded ->
  ColorThief_init E image_path = Returns tt ->
  ColorThief_get_color E image_path = Returns dominant ->
  ColorThief_get_palette E image_path = Returns colors ->
  let avg := match skin_rgb E loaded with
             | [] => dominant
             | _ :: _ => mean_color (skin_rgb E loaded)
             end in
  let l := (color_rgb2lab E (ImageService.unit_color avg)).1.1 in
  ImageService.detect_skin_tone E image_path
  = Ok (ImageService.tone_of_lightness l,
        ImageService.mkMetadata
          (ImageService.color_info_of avg)
          (ImageService.color_info_of dominant)
          (map ImageService.color_info_of colors) l).
Proof.
  intros Hload Hinit Hcolor Hpal avg l.
  unfold ImageService.detect_skin_tone, ImageService.detect_skin_tone_body,
    ImageService.load.
  rewrite Hload, Hinit, Hcolor, Hpal. simpl.
  pose proof (take_skin_rgb E loaded) as Htake. cbv zeta in Htake.
  rewrite Htake. simpl. unfold l, avg.
  destruct (skin_rgb E loaded); reflexivity.
Qed.

Lemma detect_skin_tone_outcome_witness :
  exists md,
    ImageService.detect_skin_tone Sample.env "portrait.jpg" = Ok (MEDIUM, md) /\
    ImageService.rgb (ImageService.avg_skin_color md) = (211, 139, 105) /\
    ImageService.rgb (ImageService.dominant_color md) = (200, 150, 120).
Proof.
  eexists. split.
  - apply (detect_skin_tone_outcome Sample.env "portrait.jpg"
             [ [ (120, 150, 200); (90, 60, 30); (96, 128, 224) ];
               [ (255, 255, 255); (100, 140, 210); (0, 0, 0) ] ]
             (200, 150, 120) [(200, 150, 120)]); reflexivity.
  - split; vm_compute; reflexivity.
Defined.

(* ================================================================== *)
(** * The hue after an adjustment *)
(* ================================================================== *)

Section Unchanged.

Import ImageService.

(** Clipping and casting an 8-bit value gives the value back. *)
Lemma clip_cast_u8 (x : Z) :
  u8 x ->
  F64.to_u8 (F64.clip (F64.of_Z x) 0 255) = x /\
  F64.to_u8 (F64.clip (F64.clip (F64.of_Z x) 0 255) 0 255) = x.
Proof.
  intros Hx.
  pose (P := fun x : Z =>
               (F64.to_u8 (F64.clip (F64.of_Z x) 0 255) =? x)
               && (F64.to_u8 (F64.clip (F64.clip (F64.of_Z x) 0 255) 0 255) =? x)).
  assert (H : P x = true)
    by (apply (all_u8_spec P); [vm_compute; reflexivity | exact Hx]).
  unfold P in H. apply andb_prop in H as [H1 H2].
  split; apply Z.eqb_eq; assumption.
Qed.

End Unchanged.

(** X12: in a call that returns, the hue of a skin pixel of the adjusted
    HSV image is 0 or the hue it had, hence at most 20: no hue above 179 is
    ever written.  A channel whose factor is the integer 1 keeps its value
    at every skin pixel. *)
Theorem adjust_skin_tone_hue_bounded (E : externals) (image_path : string)
    (target_tone : SkinTone) (loaded : ndarray) :
  cv2_imread E image_path = Some loaded ->
  (forall a, Image_save E (ImageService.adjusted_path_of E image_path) a
             = Returns tt) ->
  exists l st adj,
    ImageService.adjust_skin_tone_run E image_path target_tone
    = Ok (ImageService.adjusted_path_of E image_path, l, st) /\
    st !! ImageService.adjusted_hsv l = Some adj /\
    forall i j h s v,
      pixel_at (hsv_of E loaded) i j = Some (h, s, v) -> skin_gate (h, s, v) ->
      exists h' s' v',
        pixel_at adj i j = Some (h', s', v') /\
        (h' = 0 \/ h' = h) /\ 0 <= h' <= 20 /\
        ((factors target_tone (hsv_of E loaded)).1.2 = ImageService.One ->
         s' = s) /\
        ((factors target_tone (hsv_of E loaded)).2 = ImageService.One ->
         v' = v).
Proof.
  intros Hload Hsave.
  eexists _, _, _. split; [apply adjust_skin_tone_run_saved; eassumption|].
  split; [reflexivity|]. intros i j h s v Hp Hg.
  rewrite (retinted_skin E target_tone loaded i j _ Hp Hg). unfold retint.
  destruct (skin_gate_u8 _ Hg) as (Hh & Hs & _ & Hv & _). simpl in Hh, Hs, Hv.
  eexists _, _, _. split; [reflexivity|].
  assert (Hhue : (factors target_tone (hsv_of E loaded)).1.1
                 = ImageService.factor_of 0 (col0 (masked_pixels (hsv_of E loaded)))).
  { unfold factors. cbn [fst snd].
    rewrite (proj1 (target_hsv_values_u8 target_tone)). reflexivity. }
  assert (Hh' : F64.to_u8 (F64.clip (ImageService.scale
                   (factors target_tone (hsv_of E loaded)).1.1 h) 0 255) = 0 \/
                F64.to_u8 (F64.clip (ImageService.scale
                   (factors target_tone (hsv_of E loaded)).1.1 h) 0 255) = h).
  { rewrite Hhue.
    destruct (F64.ltb (F64.of_Z 0)
                (F64.mean (col0 (masked_pixels (hsv_of E loaded))))) eqn:Hm.
    - left. apply (scale_zero_target _ h Hh), Hm.
    - right. unfold ImageService.factor_of. rewrite Hm. simpl.
      apply clip_cast_u8, Hh. }
  split; [exact Hh'|]. split.
  - unfold skin_gate in Hg. destruct Hh' as [-> | ->]; lia.
  - split; intros ->; simpl; apply clip_cast_u8; assumption.
Qed.

Lemma adjust_skin_tone_hue_bounded_witness :
  exists l st adj,
    ImageService.adjust_skin_tone_run Sample.env "portrait.jpg" DARK
    = Ok (ImageService.adjusted_path_of Sample.env "portrait.jpg", l, st) /\
    st !! ImageService.adjusted_hsv l = Some adj /\
    exists h' s' v', pixel_at adj 0 2 = Some (h', s', v') /\ 0 <= h' <= 20.
Proof.
  destruct (adjust_skin_tone_hue_bounded Sample.env "portrait.jpg" DARK
              [ [ (120, 150, 200); (90, 60, 30); (96, 128, 224) ];
                [ (255, 255, 255); (100, 140, 210); (0, 0, 0) ] ]
              eq_refl (fun _ => eq_refl))
    as (l & st & adj & Hrun & Hadj & Hpx).
  exists l, st, adj. split; [exact Hrun|]. split; [exact Hadj|].
  destruct (Hpx 0%nat 2%nat 7 146 224 eq_refl) as (h' & s' & v' & H1 & _ & H2 & _).
  - unfold skin_gate. lia.
  - eauto.
Defined.
